(** * homebridge-beurer-light: the BeurerLight accessory of src/index.js

    A shallow embedding of the command framer ([getBytes], [checkCode]), the
    connection manager ([connect], [send], the idle timer), the notification
    decoder ([handleNotification]) and the white/colour lamp model
    ([setLampOn], [setBrightness], [setHue], [setSaturation], [setRgb]).

    JavaScript numbers are modelled as [Z]: every number the accessory
    touches is an integer (bytes of a Buffer, HomeKit percentages and
    degrees, rounded colour components).  Logging calls are left out. *)

From Stdlib Require Import ZArith Lia List Bool QArith Qminmax Qround.
From stdpp Require Import base tactics option list gmap strings.
Import ListNotations.

Local Open Scope Z_scope.

(** ** JavaScript arithmetic and arrays *)

Module Js.

(** [ToInt32] of an integer-valued number: wrap into [-2^31, 2^31). *)
Definition toInt32 (z : Z) : Z := (z + 2 ^ 31) mod 2 ^ 32 - 2 ^ 31.

(** The [^] operator: both operands go through [ToInt32]. *)
Definition xor (a b : Z) : Z := Z.lxor (toInt32 a) (toInt32 b).

(** [a[i]] read where the value is only used as an operand of [^]: an
    index outside the array reads [undefined], which [^] coerces to 0. *)
Definition get (a : list Z) (i : Z) : Z :=
  if i <? 0 then 0 else default 0 (a !! Z.to_nat i).

(** [a[i] = v].  A negative index creates a property that is not an
    element, so the elements are unchanged; an index inside the array
    overwrites; an index at or past the end extends the array, the holes
    in between reading [undefined], shown here as the 0 that [^] and
    [Buffer.from] coerce it to. *)
Definition set (a : list Z) (i v : Z) : list Z :=
  if i <? 0 then a
  else if i <? Z.of_nat (length a) then <[Z.to_nat i := v]> a
  else a ++ replicate (Z.to_nat (i - Z.of_nat (length a))) 0 ++ [v].

(** [Buffer.from(array)]: every entry is truncated to one byte. *)
Definition Buffer_from (a : list Z) : list Z := map (fun z => z mod 256) a.

End Js.

(** ** Checksum and framer *)

(** The loop of [checkCode]: [fuel] is the number of iterations left, [i]
    the loop variable, [b] the accumulator. *)
Fixpoint checkCode_loop (fuel : nat) (start i b : Z) (bytes : list Z) : Z :=
  match fuel with
  | O => b
  | S fuel' =>
      checkCode_loop fuel' start (i + 1) (Js.xor (Js.get bytes (start + i)) b) bytes
  end.

(** [checkCode(start, finish, bytes)]: [i] runs from [start] while
    [i < finish - start], that is [finish - start - start] times. *)
Definition checkCode (start finish : Z) (bytes : list Z) : Z :=
  checkCode_loop (Z.to_nat (finish - start - start)) start start 0 bytes.

(** [getBytes(input)]. *)
Definition getBytes (input : list Z) : list Z :=
  let inputBytes := input in
  let inputBytes := Js.set inputBytes 0 (Z.of_nat (length input) - 1) in
  let inputBytes :=
    Js.set inputBytes (Z.of_nat (length inputBytes) - 2)
      (checkCode 0 (Z.of_nat (length inputBytes) - 2) inputBytes) in
  let bytes := [254; 239; 10; Z.of_nat (length input) + 8 - 4; 171; 170] in
  let bytes := bytes ++ inputBytes in
  let bytes := bytes ++ [13; 10] in
  bytes.

(** *** The frame as the specification describes it *)

(** XOR as a mathematical fold over a window of bytes. *)
Definition xor_all (window : list Z) : Z := foldr Z.lxor 0 window.

(** The XOR of a window with the program's own [^], folded left to right. *)
Definition xor_window (window : list Z) : Z :=
  fold_left (fun b x => Js.xor x b) window 0.

(** The payload with its length marker written at index 0. *)
Definition with_length (payload : list Z) : list Z :=
  <[0%nat := Z.of_nat (length payload) - 1]> payload.

(** Header, rewritten payload, terminator; [fold] is the XOR used for the
    checksum window, the indices 0 to [length payload - 3]. *)
Definition frame_with (fold : list Z -> Z) (payload : list Z) : list Z :=
  let n := length payload in
  [254; 239; 10; Z.of_nat n + 4; 171; 170]
    ++ <[(n - 2)%nat := fold (take (n - 2) (with_length payload))]> (with_length payload)
    ++ [13; 10].

Definition is_byte (z : Z) : Prop := 0 <= z < 256.

(** A non-negative number that [ToInt32] leaves as it is. *)
Definition small (z : Z) : Prop := 0 <= z < 2 ^ 31.


(** ** The Bluetooth side, as the accessory sees it *)

(** Errors a promise of the accessory can be rejected with. *)
Inductive Error :=
  | BleError (code : nat)      (* the error object a noble callback receives *)
  | MissingCharacteristics     (* new Error('Missing characteristics') *)
  | TypeError.                 (* a method call on null or undefined *)

(** What the Bluetooth stack does with a callback it was handed. *)
Inductive Reply :=
  | Done                       (* callback(null) *)
  | Failed (e : Error)         (* callback(error) *)
  | Silent.                    (* the callback is never invoked *)

(** The objects of noble the accessory holds.  Their behaviour is not part
    of the repository: each request is answered by an arbitrary function of
    the number of requests issued so far. *)
Record Characteristic := { on_write : nat -> Reply }.

Record Notifier := { emits_notify : nat -> bool }.

Inductive Discovery :=
  | DiscoverFailed (e : Error)
  | Discovered (control : option Characteristic) (notify : option Notifier)
  | DiscoverSilent.

Record Peripheral := {
  on_connect : nat -> Reply;
  on_discover : nat -> Discovery }.

(** What the accessory does that the outside can observe, oldest last in
    [trace].  [CallConnect] and [CallSend] record the entry into the two
    methods of the connection manager. *)
Inductive Event :=
  | CallConnect
  | CallSend (bytes : list Z)
  | PeripheralConnect
  | PeripheralDiscover
  | NotifySubscribe
  | PeripheralDisconnect
  | ControlWrite (buffer : list Z)
  | UpdateOn (v : bool)
  | UpdateBrightness (v : Z)
  | UpdateHue (v : Z)
  | UpdateSaturation (v : Z).

(** ** The accessory object *)

(** The fields of [BeurerLight] set by its constructor.  [lightService]
    stands for [accessory.getService(Service.Lightbulb)] being defined. *)
Record BeurerLight := {
  lightService : bool;
  peripheral : option Peripheral;
  lampControl : option Characteristic;
  connected : bool;
  connectionTimeout : Z;
  connectionTimeoutToken : option nat;
  hue : Z;
  saturation : Z;
  brightness : Z;
  whiteBrightness : Z;
  colorBrightness : Z;
  whiteOn : bool;
  colorOn : bool;
  whichLampToControl : Z }.

Definition set_peripheral (v : option Peripheral) (l : BeurerLight) : BeurerLight :=
  {| lightService := lightService l;
     peripheral := v;
     lampControl := lampControl l;
     connected := connected l;
     connectionTimeout := connectionTimeout l;
     connectionTimeoutToken := connectionTimeoutToken l;
     hue := hue l;
     saturation := saturation l;
     brightness := brightness l;
     whiteBrightness := whiteBrightness l;
     colorBrightness := colorBrightness l;
     whiteOn := whiteOn l;
     colorOn := colorOn l;
     whichLampToControl := whichLampToControl l |}.

Definition set_lampControl (v : option Characteristic) (l : BeurerLight) : BeurerLight :=
  {| lightService := lightService l;
     peripheral := peripheral l;
     lampControl := v;
     connected := connected l;
     connectionTimeout := connectionTimeout l;
     connectionTimeoutToken := connectionTimeoutToken l;
     hue := hue l;
     saturation := saturation l;
     brightness := brightness l;
     whiteBrightness := whiteBrightness l;
     colorBrightness := colorBrightness l;
     whiteOn := whiteOn l;
     colorOn := colorOn l;
     whichLampToControl := whichLampToControl l |}.

Definition set_connected (v : bool) (l : BeurerLight) : BeurerLight :=
  {| lightService := lightService l;
     peripheral := peripheral l;
     lampControl := lampControl l;
     connected := v;
     connectionTimeout := connectionTimeout l;
     connectionTimeoutToken := connectionTimeoutToken l;
     hue := hue l;
     saturation := saturation l;
     brightness := brightness l;
     whiteBrightness := whiteBrightness l;
     colorBrightness := colorBrightness l;
     whiteOn := whiteOn l;
     colorOn := colorOn l;
     whichLampToControl := whichLampToControl l |}.

Definition set_connectionTimeoutToken (v : option nat) (l : BeurerLight) : BeurerLight :=
  {| lightService := lightService l;
     peripheral := peripheral l;
     lampControl := lampControl l;
     connected := connected l;
     connectionTimeout := connectionTimeout l;
     connectionTimeoutToken := v;
     hue := hue l;
     saturation := saturation l;
     brightness := brightness l;
     whiteBrightness := whiteBrightness l;
     colorBrightness := colorBrightness l;
     whiteOn := whiteOn l;
     colorOn := colorOn l;
     whichLampToControl := whichLampToControl l |}.

Definition set_hue (v : Z) (l : BeurerLight) : BeurerLight :=
  {| lightService := lightService l;
     peripheral := peripheral l;
     lampControl := lampControl l;
     connected := connected l;
     connectionTimeout := connectionTimeout l;
     connectionTimeoutToken := connectionTimeoutToken l;
     hue := v;
     saturation := saturation l;
     brightness := brightness l;
     whiteBrightness := whiteBrightness l;
     colorBrightness := colorBrightness l;
     whiteOn := whiteOn l;
     colorOn := colorOn l;
     whichLampToControl := whichLampToControl l |}.

Definition set_saturation (v : Z) (l : BeurerLight) : BeurerLight :=
  {| lightService := lightService l;
     peripheral := peripheral l;
     lampControl := lampControl l;
     connected := connected l;
     connectionTimeout := connectionTimeout l;
     connectionTimeoutToken := connectionTimeoutToken l;
     hue := hue l;
     saturation := v;
     brightness := brightness l;
     whiteBrightness := whiteBrightness l;
     colorBrightness := colorBrightness l;
     whiteOn := whiteOn l;
     colorOn := colorOn l;
     whichLampToControl := whichLampToControl l |}.

Definition set_whiteBrightness (v : Z) (l : BeurerLight) : BeurerLight :=
  {| lightService := lightService l;
     peripheral := peripheral l;
     lampControl := lampControl l;
     connected := connected l;
     connectionTimeout := connectionTimeout l;
     connectionTimeoutToken := connectionTimeoutToken l;
     hue := hue l;
     saturation := saturation l;
     brightness := brightness l;
     whiteBrightness := v;
     colorBrightness := colorBrightness l;
     whiteOn := whiteOn l;
     colorOn := colorOn l;
     whichLampToControl := whichLampToControl l |}.

Definition set_colorBrightness (v : Z) (l : BeurerLight) : BeurerLight :=
  {| lightService := lightService l;
     peripheral := peripheral l;
     lampControl := lampControl l;
     connected := connected l;
     connectionTimeout := connectionTimeout l;
     connectionTimeoutToken := connectionTimeoutToken l;
     hue := hue l;
     saturation := saturation l;
     brightness := brightness l;
     whiteBrightness := whiteBrightness l;
     colorBrightness := v;
     whiteOn := whiteOn l;
     colorOn := colorOn l;
     whichLampToControl := whichLampToControl l |}.

Definition set_whiteOn (v : bool) (l : BeurerLight) : BeurerLight :=
  {| lightService := lightService l;
     peripheral := peripheral l;
     lampControl := lampControl l;
     connected := connected l;
     connectionTimeout := connectionTimeout l;
     connectionTimeoutToken := connectionTimeoutToken l;
     hue := hue l;
     saturation := saturation l;
     brightness := brightness l;
     whiteBrightness := whiteBrightness l;
     colorBrightness := colorBrightness l;
     whiteOn := v;
     colorOn := colorOn l;
     whichLampToControl := whichLampToControl l |}.

Definition set_colorOn (v : bool) (l : BeurerLight) : BeurerLight :=
  {| lightService := lightService l;
     peripheral := peripheral l;
     lampControl := lampControl l;
     connected := connected l;
     connectionTimeout := connectionTimeout l;
     connectionTimeoutToken := connectionTimeoutToken l;
     hue := hue l;
     saturation := saturation l;
     brightness := brightness l;
     whiteBrightness := whiteBrightness l;
     colorBrightness := colorBrightness l;
     whiteOn := whiteOn l;
     colorOn := v;
     whichLampToControl := whichLampToControl l |}.

Definition set_whichLampToControl (v : Z) (l : BeurerLight) : BeurerLight :=
  {| lightService := lightService l;
     peripheral := peripheral l;
     lampControl := lampControl l;
     connected := connected l;
     connectionTimeout := connectionTimeout l;
     connectionTimeoutToken := connectionTimeoutToken l;
     hue := hue l;
     saturation := saturation l;
     brightness := brightness l;
     whiteBrightness := whiteBrightness l;
     colorBrightness := colorBrightness l;
     whiteOn := whiteOn l;
     colorOn := colorOn l;
     whichLampToControl := v |}.

(** The event loop: the clock in milliseconds, the pending timers (token
    and deadline; every timer of the accessory runs [disconnect]), the next
    free token, the number of Bluetooth requests issued, the observations. *)
Record Runtime := {
  now : Z;
  timers : list (nat * Z);
  next_timer : nat;
  requests : nat;
  trace : list Event }.

Record World := { self : BeurerLight; rt : Runtime }.

Definition update (f : BeurerLight -> BeurerLight) (w : World) : World :=
  {| self := f (self w); rt := rt w |}.

Definition emit (e : Event) (w : World) : World :=
  {| self := self w;
     rt := {| now := now (rt w); timers := timers (rt w);
              next_timer := next_timer (rt w); requests := requests (rt w);
              trace := e :: trace (rt w) |} |}.

(** [constructor(accessory, platform)]: the initial field values, on an
    event loop with no timer pending. *)
Definition constructor (hasLightService : bool) : World :=
  {| self := {| lightService := hasLightService;
                peripheral := None;
                lampControl := None;
                connected := false;
                connectionTimeout := 5000;
                connectionTimeoutToken := None;
                hue := 0;
                saturation := 0;
                brightness := 50;
                whiteBrightness := 50;
                colorBrightness := 50;
                whiteOn := false;
                colorOn := false;
                whichLampToControl := 1 |};
     rt := {| now := 0; timers := []; next_timer := O; requests := O; trace := [] |} |}.

(** ** Timers *)

(** [clearTimeout(token)]: the timer with that token, if still pending, is
    removed. *)
Definition clearTimeout (token : nat) (w : World) : World :=
  {| self := self w;
     rt := {| now := now (rt w);
              timers := List.filter (fun t => negb (Nat.eqb (fst t) token)) (timers (rt w));
              next_timer := next_timer (rt w); requests := requests (rt w);
              trace := trace (rt w) |} |}.

(** [setTimeout(() => this.disconnect(), delay)]: a fresh token, due
    [delay] milliseconds from now. *)
Definition setTimeout (delay : Z) (w : World) : nat * World :=
  (next_timer (rt w),
   {| self := self w;
      rt := {| now := now (rt w);
               timers := (next_timer (rt w), now (rt w) + delay) :: timers (rt w);
               next_timer := S (next_timer (rt w)); requests := requests (rt w);
               trace := trace (rt w) |} |}).

(** [resetConnectionTimeout()]. *)
Definition resetConnectionTimeout (w : World) : World :=
  let w :=
    match connectionTimeoutToken (self w) with
    | Some token => clearTimeout token w
    | None => w
    end in
  let (token, w) := setTimeout (connectionTimeout (self w)) w in
  update (set_connectionTimeoutToken (Some token)) w.

(** [disconnect()]. *)
Definition disconnect (w : World) : World :=
  match peripheral (self w) with
  | Some _ =>
      if connected (self w)
      then update (set_connected false) (emit PeripheralDisconnect w)
      else w
  | None => w
  end.

(** [dt] milliseconds pass with no call into the accessory: the clock
    advances and every timer that has come due is taken off the list and
    runs its callback, [disconnect]. *)
Definition elapse (dt : Z) (w : World) : World :=
  let t := now (rt w) + dt in
  let due := List.filter (fun x => snd x <=? t) (timers (rt w)) in
  let rest := List.filter (fun x => negb (snd x <=? t)) (timers (rt w)) in
  fold_right (fun _ w' => disconnect w')
    {| self := self w;
       rt := {| now := t; timers := rest; next_timer := next_timer (rt w);
                requests := requests (rt w); trace := trace (rt w) |} |}
    due.

(** ** Promises *)

(** How an [async] method ends: its promise resolves, rejects, or is never
    settled because a callback it waits for is never invoked. *)
Inductive Outcome (A : Type) :=
  | Resolved (a : A)
  | Rejected (e : Error)
  | Pending.
Arguments Resolved {A} a.
Arguments Rejected {A} e.
Arguments Pending {A}.

Definition Async (A : Type) : Type := World -> Outcome A * World.

#[global] Instance async_ret : MRet Async := fun A a w => (Resolved a, w).

#[global] Instance async_bind : MBind Async := fun A B f m w =>
  match m w with
  | (Resolved a, w') => f a w'
  | (Rejected e, w') => (Rejected e, w')
  | (Pending, w') => (Pending, w')
  end.

Definition gets {A} (f : BeurerLight -> A) : Async A := fun w => (Resolved (f (self w)), w).
Definition modify (f : World -> World) : Async unit := fun w => (Resolved tt, f w).
Definition reject {A} (e : Error) : Async A := fun w => (Rejected e, w).
Definition pending {A} : Async A := fun w => (Pending, w).

(** A request to the Bluetooth stack: it is observed, and numbered so that
    the stack's answer may depend on when it was asked. *)
Definition request (e : Event) : Async nat := fun w =>
  (Resolved (requests (rt w)),
   {| self := self w;
      rt := {| now := now (rt w); timers := timers (rt w);
               next_timer := next_timer (rt w); requests := S (requests (rt w));
               trace := e :: trace (rt w) |} |}).

(** An object reference used as a condition: [null] and [undefined] are
    false. *)
Definition truthy {A} (o : option A) : bool :=
  match o with Some _ => true | None => false end.

(** A promise settled from a node-style callback. *)
Definition settle (r : Reply) : Async unit :=
  match r with
  | Done => mret tt
  | Failed e => reject e
  | Silent => pending
  end.

(** ** Connection manager *)

Definition whiteStatusCmd : list Z := [254; 239; 10; 9; 171; 170; 4; 48; 1; 53; 85; 13; 10].
Definition colorStatusCmd : list Z := [254; 239; 10; 9; 171; 170; 4; 48; 2; 54; 85; 13; 10].

(** [requestState()]: two writes whose callbacks only log. *)
Definition requestState : Async unit :=
  control ← gets lampControl;
  match control with
  | None => reject TypeError
  | Some _ =>
      _ ← request (ControlWrite whiteStatusCmd);
      _ ← request (ControlWrite colorStatusCmd);
      mret tt
  end.

(** [connect()]. *)
Definition connect : Async unit :=
  modify (emit CallConnect);;
  p ← gets peripheral;
  match p with
  | None => mret tt
  | Some p =>
      n ← request PeripheralConnect;
      settle (on_connect p n);;
      modify (update (set_connected true));;
      n ← request PeripheralDiscover;
      match on_discover p n with
      | DiscoverFailed e => reject e
      | DiscoverSilent => pending
      | Discovered control notify =>
          modify (update (set_lampControl control));;
          match control, notify with
          | Some _, Some notify =>
              n ← request NotifySubscribe;
              if emits_notify notify n
              then requestState;; mret tt
              else pending
          | _, _ => reject MissingCharacteristics
          end
      end
  end.

(** [setPeripheral(peripheral)]: the promise of [connect] is dropped; the
    connection attempt is run to its end here. *)
Definition setPeripheral (p : Peripheral) (w : World) : World :=
  snd (connect (update (set_peripheral (Some p)) w)).

(** The promise around [this.lampControl.write(buffer, true, callback)]. *)
Definition writeControl (buffer : list Z) : Async unit :=
  control ← gets lampControl;
  match control with
  | None => reject TypeError
  | Some c =>
      n ← request (ControlWrite buffer);
      settle (on_write c n)
  end.

(** [send(bytes)]. *)
Definition send (bytes : list Z) : Async unit :=
  modify (emit (CallSend bytes));;
  isConnected ← gets connected;
  control ← gets lampControl;
  (if negb isConnected || negb (truthy control)
   then connect
   else mret tt);;
  modify resetConnectionTimeout;;
  let buffer := Js.Buffer_from (getBytes bytes) in
  writeControl buffer.

(** ** Lamp state seen from HomeKit *)

(** [isLampOn()]. *)
Definition isLampOn (l : BeurerLight) : bool := whiteOn l || colorOn l.

(** [getBrightness()]. *)
Definition getBrightness (l : BeurerLight) : Z :=
  if colorOn l then colorBrightness l else whiteBrightness l.

(** [getHue()] and [getSaturation()]. *)
Definition getHue (l : BeurerLight) : Z := hue l.
Definition getSaturation (l : BeurerLight) : Z := saturation l.

(** [updateHomeKitState()]: the four values pushed with [updateValue]. *)
Definition updateHomeKitState (w : World) : World :=
  if lightService (self w) then
    let l := self w in
    emit (UpdateSaturation (saturation l))
      (emit (UpdateHue (hue l))
         (emit (UpdateBrightness (if whiteOn l then whiteBrightness l else colorBrightness l))
            (emit (UpdateOn (whiteOn l || colorOn l)) w)))
  else w.

(** The brightness the specification gives the lamp: that of the channel
    that is on, the white one's when neither is. *)
Definition visible_brightness (l : BeurerLight) : Z :=
  if colorOn l then colorBrightness l
  else if whiteOn l then whiteBrightness l
  else whiteBrightness l.

(** The brightness last pushed to HomeKit, newest observation first. *)
Fixpoint pushed_brightness (t : list Event) : option Z :=
  match t with
  | [] => None
  | UpdateBrightness v :: _ => Some v
  | _ :: t' => pushed_brightness t'
  end.

(** [setLampOn(value)]. *)
Definition setLampOn (value : bool) : Async unit :=
  isColor ← gets colorOn;
  if value && isColor then mret tt
  else
    modify (update (set_whichLampToControl 1));;
    isColor ← gets colorOn;
    (if negb value && isColor
     then modify (update (set_whichLampToControl 2))
     else mret tt);;
    (if value
     then modify (update (set_whiteOn true));; modify (update (set_colorOn false))
     else modify (update (set_whiteOn false));; modify (update (set_colorOn false)));;
    let onOffBit := if value then 55 else 53 in
    which ← gets whichLampToControl;
    send [0; onOffBit; which; 0; 85].

(** [setBrightness(value)]. *)
Definition setBrightness (value : Z) : Async unit :=
  isColor ← gets colorOn;
  (if (isColor : bool)
   then modify (update (set_colorBrightness value));;
        modify (update (set_whichLampToControl 2))
   else modify (update (set_whiteBrightness value));;
        modify (update (set_whichLampToControl 1)));;
  which ← gets whichLampToControl;
  send [0; 49; which; value; 0; 85].

(** The two conversions taken from the color-convert package, which is not
    part of the repository: [rgb.hsl(r, g, b)] and [hsl.rgb(h, s, l)], each
    returning its three components. *)
Class ColorConvert := {
  rgb_hsl : Z -> Z -> Z -> Z * Z * Z;
  hsl_rgb : Z -> Z -> Z -> Z * Z * Z }.

Section Accessory.

Context `{ColorConvert}.

(** [setRgb()]. *)
Definition setRgb : Async unit :=
  isColor ← gets colorOn;
  (if negb isColor return Async unit
   then send [4; 55; 2; 0; 85];; modify (update (set_colorOn true))
   else mret tt);;
  modify (update (set_colorOn true));;
  modify (update (set_whiteOn false));;
  h ← gets hue;
  s ← gets saturation;
  let '(r, g, b) := hsl_rgb h s 50 in
  send [0; 50; r; g; b; 0; 85].

(** [setHue(value)] and [setSaturation(value)]. *)
Definition setHue (value : Z) : Async unit :=
  modify (update (set_hue value));; setRgb.

Definition setSaturation (value : Z) : Async unit :=
  modify (update (set_saturation value));; setRgb.

(** [convert.rgb.hsl(red, green, blue)] on what a frame gives for
    [data[13]], [data[14]] and [data[15]].  The package returns
    [undefined] when its first argument is [undefined], the case the guard
    [if (hsl)] is there for: the inner [None].  On three bytes it returns
    the converted triple.  On a first byte followed by [undefined] it
    computes with [NaN], a value outside the numbers modelled here: the
    outer [None]. *)
Definition rgb_hsl_at (data : list Z) : option (option (Z * Z * Z)) :=
  match data !! 13%nat with
  | None => Some None
  | Some red =>
      green ← data !! 14%nat;
      blue ← data !! 15%nat;
      Some (Some (rgb_hsl red green blue))
  end.

(** [handleNotification(data)].  [data[8] === 2] and [data[9] === 1] are
    false on a frame too short to have the byte.  A colour frame that stops
    before [data[13]] has nothing converted and keeps hue and saturation.
    The result is [None] for a frame on which a number stored is
    [undefined] or [NaN], outside the numbers modelled here: one without
    [data[10]], or a colour frame with [data[13]] and without [data[14]]
    or [data[15]]; what the call does on such a frame besides is in
    [notified] below. *)
Definition handleNotification (data : list Z) (w : World) : option World :=
  w ←
    (if bool_decide (data !! 8%nat = Some 2) then
       hsl ← rgb_hsl_at data;
       level ← data !! 10%nat;
       let w := update (set_colorBrightness level) w in
       let w := update (set_colorOn (bool_decide (data !! 9%nat = Some 1))) w in
       Some (match hsl with
             | Some (h, s, _) => update (set_saturation s) (update (set_hue h) w)
             | None => w
             end)
     else
       level ← data !! 10%nat;
       let w := update (set_whiteBrightness level) w in
       let w := update (set_whiteOn (bool_decide (data !! 9%nat = Some 1))) w in
       Some w);
  Some (resetConnectionTimeout (updateHomeKitState w)).

(** The calls HomeKit makes through the characteristics' [onSet]. *)
Inductive Call :=
  | SetLampOn (value : bool)
  | SetBrightness (value : Z)
  | SetHue (value : Z)
  | SetSaturation (value : Z).

Definition perform (c : Call) : Async unit :=
  match c with
  | SetLampOn value => setLampOn value
  | SetBrightness value => setBrightness value
  | SetHue value => setHue value
  | SetSaturation value => setSaturation value
  end.

(** The accessory after each call of a sequence, every call running to
    the point where its promise settles or is left pending before the
    next one starts. *)
Fixpoint states_after (calls : list Call) (w : World) : list World :=
  match calls with
  | [] => []
  | c :: calls' => let w' := snd (perform c w) in w' :: states_after calls' w'
  end.

End Accessory.

(** The observations made between two worlds, oldest first. *)
Definition emitted (w w' : World) (events : list Event) : Prop :=
  trace (rt w') = rev events ++ trace (rt w).

Definition is_CallConnect (e : Event) : bool :=
  match e with CallConnect => true | _ => false end.

Definition is_CallSend (e : Event) : bool :=
  match e with CallSend _ => true | _ => false end.

(** At most one of the two channels is on. *)
Definition exclusive (w : World) : Prop := whiteOn (self w) && colorOn (self w) = false.

(** Every pending timer is the one [connectionTimeoutToken] names. *)
Definition single_timer (w : World) : Prop :=
  forall token deadline,
    In (token, deadline) (timers (rt w)) -> connectionTimeoutToken (self w) = Some token.

(** The seven fields of the lamp model are the same in two worlds. *)
Definition same_lamp (w w' : World) : Prop :=
  whiteOn (self w') = whiteOn (self w)
  /\ colorOn (self w') = colorOn (self w)
  /\ whiteBrightness (self w') = whiteBrightness (self w)
  /\ colorBrightness (self w') = colorBrightness (self w)
  /\ hue (self w') = hue (self w)
  /\ saturation (self w') = saturation (self w)
  /\ whichLampToControl (self w') = whichLampToControl (self w).

(** The clock, the pending timers and the accessory's timer fields are the
    same in two worlds. *)
Definition same_timer (w w' : World) : Prop :=
  now (rt w') = now (rt w)
  /\ timers (rt w') = timers (rt w)
  /\ next_timer (rt w') = next_timer (rt w)
  /\ connectionTimeoutToken (self w') = connectionTimeoutToken (self w)
  /\ connectionTimeout (self w') = connectionTimeout (self w).

(** Exactly one timer is pending, it is the accessory's, and it is due at
    [deadline]. *)
Definition armed (w : World) (deadline : Z) : Prop :=
  exists token,
    connectionTimeoutToken (self w) = Some token
    /\ timers (rt w) = [(token, deadline)].

(** The condition under which [send] reconnects. *)
Definition needs_connect (w : World) : bool :=
  negb (connected (self w)) || negb (truthy (lampControl (self w))).

(** [send] gets past its reconnection step: none is needed, or the
    promise of [connect] resolves. *)
Definition passes_connect (bytes : list Z) (w : World) : Prop :=
  needs_connect w = false
  \/ fst (connect (emit (CallSend bytes) w)) = Resolved tt.

(** The idle delay is the constructor's, and no timer but the accessory's
    own is pending. *)
Definition idle_inv (w : World) : Prop :=
  connectionTimeout (self w) = 5000 /\ single_timer w.

(** The connection side of the accessory and of its event loop is the
    same in two worlds: all but the lamp model and the observations. *)
Definition same_link (w w' : World) : Prop :=
  lightService (self w') = lightService (self w)
  /\ peripheral (self w') = peripheral (self w)
  /\ lampControl (self w') = lampControl (self w)
  /\ connected (self w') = connected (self w)
  /\ requests (rt w') = requests (rt w)
  /\ same_timer w w'.

(** An inbound notification takes the accessory from [w] to [w'].  On a
    frame on which every number stored is an integer, [w'] is what
    [handleNotification] computes.  On any other frame the call stores
    [undefined] or [NaN] in the lamp model and reports it to HomeKit: of
    the lamp model and of the observations nothing is said then, and what
    is kept is that the call leaves the connection side alone and ends, as
    on every frame, with [resetConnectionTimeout()]. *)
Definition notified `{ColorConvert} (data : list Z) (w w' : World) : Prop :=
  match handleNotification data w with
  | Some w1 => w' = w1
  | None => exists w0, same_link w w0 /\ w' = resetConnectionTimeout w0
  end.

(** The channel byte of the on/off command: colour when switching off
    with the colour channel on, white otherwise. *)
Definition switch_channel (value : bool) (w : World) : Z :=
  if negb value && colorOn (self w) then 2 else 1.

(** The body of the on/off command. *)
Definition switch_payload (value : bool) (w : World) : list Z :=
  [0; if value then 55 else 53; switch_channel value w; 0; 85].

(** [data[i]] on a frame that has the byte. *)
Definition byte_at (data : list Z) (i : nat) : Z := default 0 (data !! i).

(** The frame has every byte its branch of the decoder reads. *)
Definition sufficient (data : list Z) : Prop :=
  if bool_decide (data !! 8%nat = Some 2)
  then (16 <= length data)%nat
  else (11 <= length data)%nat.

Definition no_CallConnect (events : list Event) : Prop :=
  forallb (fun e => negb (is_CallConnect e)) events = true.

Definition no_CallSend (events : list Event) : Prop :=
  forallb (fun e => negb (is_CallSend e)) events = true.

(** ** Sample inputs *)

(** A stand-in for the color-convert package, to run examples with: its
    two algorithms over exact rationals, [Math.round] applied to each
    component as the package does.  The package computes in floating
    point; no theorem depends on this instance except through the class. *)
Module SampleConvert.

Definition round (q : Q) : Z := Qfloor (q + (1 # 2)).

Definition Qlt_bool (a b : Q) : bool := negb (Qle_bool b a).

Definition rgb_hsl (r g b : Z) : Z * Z * Z :=
  let r := (inject_Z r / 255)%Q in
  let g := (inject_Z g / 255)%Q in
  let b := (inject_Z b / 255)%Q in
  let mn := Qmin (Qmin r g) b in
  let mx := Qmax (Qmax r g) b in
  let delta := (mx - mn)%Q in
  let h :=
    if Qeq_bool mx mn then 0%Q
    else if Qeq_bool r mx then ((g - b) / delta)%Q
    else if Qeq_bool g mx then (2 + (b - r) / delta)%Q
    else (4 + (r - g) / delta)%Q in
  let h := Qmin (h * 60)%Q 360%Q in
  let h := if Qlt_bool h 0 then (h + 360)%Q else h in
  let l := ((mn + mx) / 2)%Q in
  let s :=
    if Qeq_bool mx mn then 0%Q
    else if Qle_bool l (1 # 2) then (delta / (mx + mn))%Q
    else (delta / (2 - mx - mn))%Q in
  (round h, round (s * 100)%Q, round (l * 100)%Q).

Definition hsl_rgb (h s l : Z) : Z * Z * Z :=
  let h := (inject_Z h / 360)%Q in
  let s := (inject_Z s / 100)%Q in
  let l := (inject_Z l / 100)%Q in
  if Qeq_bool s 0 then
    let val := round (l * 255)%Q in (val, val, val)
  else
    let t2 := if Qlt_bool l (1 # 2) then (l * (1 + s))%Q else (l + s - l * s)%Q in
    let t1 := (2 * l - t2)%Q in
    let channel (i : Z) : Z :=
      let t3 := (h + (1 # 3) * - (inject_Z i - 1))%Q in
      let t3 := if Qlt_bool t3 0 then (t3 + 1)%Q else t3 in
      let t3 := if Qlt_bool 1 t3 then (t3 - 1)%Q else t3 in
      let val :=
        if Qlt_bool (6 * t3) 1 then (t1 + (t2 - t1) * 6 * t3)%Q
        else if Qlt_bool (2 * t3) 1 then t2
        else if Qlt_bool (3 * t3) 2 then (t1 + (t2 - t1) * ((2 # 3) - t3) * 6)%Q
        else t1 in
      round (val * 255)%Q in
    (channel 0, channel 1, channel 2).

End SampleConvert.

#[global] Instance sample_convert : ColorConvert :=
  {| rgb_hsl := SampleConvert.rgb_hsl; hsl_rgb := SampleConvert.hsl_rgb |}.

(** The body of a set-brightness command: white channel, 80 percent. *)
Definition dim_payload : list Z := [0; 49; 1; 80; 0; 85].

(** A lamp that answers every request. *)
Definition steady_control : Characteristic := {| on_write := fun _ => Done |}.

Definition steady_lamp : Peripheral :=
  {| on_connect := fun _ => Done;
     on_discover := fun _ =>
       Discovered (Some steady_control) (Some {| emits_notify := fun _ => true |}) |}.

(** A lamp that connects and takes the two status requests, requests 0 to
    4, and fails every write after that. *)
Definition fading_control : Characteristic :=
  {| on_write := fun n => if (n <? 5)%nat then Done else Failed (BleError 1) |}.

Definition fading_lamp : Peripheral :=
  {| on_connect := fun _ => Done;
     on_discover := fun _ =>
       Discovered (Some fading_control) (Some {| emits_notify := fun _ => true |}) |}.

(** A lamp out of range: connecting fails. *)
Definition absent_lamp : Peripheral :=
  {| on_connect := fun _ => Failed (BleError 2);
     on_discover := fun _ => DiscoverSilent |}.

(** A lamp whose discovery finds the control characteristic and no notify
    characteristic. *)
Definition mute_lamp : Peripheral :=
  {| on_connect := fun _ => Done;
     on_discover := fun _ => Discovered (Some steady_control) None |}.

(** The accessory once a peripheral was found and the connection made. *)
Definition paired (p : Peripheral) : World := setPeripheral p (constructor true).

(** The accessory five seconds after its last command: the idle timer has
    fired and the link is down. *)
Definition lapsed : World := elapse 5000 (snd (send dim_payload (paired steady_lamp))).

(** A lamp whose discovery succeeds the first time, at request 1, and
    fails ever after; and the accessory paired with it, five seconds after
    a command: disconnected, the control characteristic still held. *)
Definition hazy_lamp : Peripheral :=
  {| on_connect := fun _ => Done;
     on_discover := fun n =>
       if (n <? 2)%nat
       then Discovered (Some steady_control) (Some {| emits_notify := fun _ => true |})
       else DiscoverFailed (BleError 3) |}.

Definition hazy : World := elapse 5000 (snd (send dim_payload (paired hazy_lamp))).

(** Status notifications: white channel off at 30 percent; colour channel
    on at 70 percent showing pure red. *)
Definition white_off_30 : list Z := [254; 239; 10; 15; 171; 170; 11; 208; 1; 0; 30; 0; 0; 0; 0; 0].
Definition color_on_red : list Z := [254; 239; 10; 15; 171; 170; 11; 208; 2; 1; 70; 0; 0; 255; 0; 0].

(** A colour frame cut after 13 bytes: on at 70 percent, no colour. *)
Definition colour_13 : list Z := [254; 239; 10; 15; 171; 170; 11; 208; 2; 1; 70; 0; 0].

(** White channel on at 60 percent. *)
Definition white_on_60 : list Z := [254; 239; 10; 15; 171; 170; 11; 208; 1; 1; 60; 0; 0; 0; 0; 0].

(** The payloads handed to [send], in order, among some observations. *)
Fixpoint sent_payloads (events : list Event) : list (list Z) :=
  match events with
  | [] => []
  | CallSend bytes :: events' => bytes :: sent_payloads events'
  | _ :: events' => sent_payloads events'
  end.

(** The body of the colour command for the stored hue and saturation, at
    lightness 50. *)
Definition rgb_payload `{ColorConvert} (w : World) : list Z :=
  let '(r, g, b) := hsl_rgb (hue (self w)) (saturation (self w)) 50 in
  [0; 50; r; g; b; 0; 85].

(** The accessory after the assignments [handleNotification] makes from a
    frame, before it reports to HomeKit and re-arms the timer. *)
Definition decoded `{ColorConvert} (data : list Z) (w : World) : World :=
  if bool_decide (data !! 8%nat = Some 2) then
    let '(h, s, _) := rgb_hsl (byte_at data 13) (byte_at data 14) (byte_at data 15) in
    update (set_saturation s)
      (update (set_hue h)
         (update (set_colorOn (byte_at data 9 =? 1))
            (update (set_colorBrightness (byte_at data 10)) w)))
  else
    update (set_whiteOn (byte_at data 9 =? 1))
      (update (set_whiteBrightness (byte_at data 10)) w).

(** ** The platform *)

(** [UUIDGen.generate] of the HomeKit library, which is not part of the
    repository: the accessory UUID made from a peripheral's UUID. *)
Class UuidGen := { generate : string -> string }.

(** A peripheral as noble hands it to the [discover] listener:
    [peripheral.uuid], [peripheral.advertisement.localName] (absent from
    some advertisements) and the object the accessory talks to. *)
Record Device := {
  device_uuid : string;
  localName : option string;
  device_link : Peripheral }.

(** What the platform knows or sets of a [platformAccessory]: its name and
    UUID, [context.peripheralUuid], the three characteristics of its
    information service, and whether it has a Lightbulb service. *)
Record Accessory := {
  displayName : string;
  UUID : string;
  peripheralUuid : option string;
  manufacturer : option string;
  model : option string;
  serialNumber : option string;
  lightbulb : bool }.

(** [BeurerPlatform]: the map [accessories] from UUID to light, each light
    with the part of the event loop that concerns it; whether noble was
    last asked to scan or to stop; and the accessories handed to
    [registerPlatformAccessories], newest first. *)
Record BeurerPlatform := {
  accessories : gmap string World;
  scanning : bool;
  registered : list Accessory }.

(** The platform's constructor: [accessories = new Map()]. *)
Definition new_platform : BeurerPlatform :=
  {| accessories := ∅; scanning := false; registered := [] |}.

(** [configureAccessory(accessory)]. *)
Definition configureAccessory (accessory : Accessory) (pl : BeurerPlatform)
  : BeurerPlatform :=
  {| accessories := <[UUID accessory := constructor (lightbulb accessory)]> (accessories pl);
     scanning := scanning pl;
     registered := registered pl |}.

(** The [stateChange] listener of [startScanning()]. *)
Definition onStateChange (state : string) (pl : BeurerPlatform) : BeurerPlatform :=
  if String.eqb state "poweredOn"
  then {| accessories := accessories pl; scanning := true; registered := registered pl |}
  else pl.

(** [a || b] on strings that may be [undefined]: the empty string is false
    too. *)
Definition or_else (a : option string) (b : string) : string :=
  match a with
  | Some s => if String.eqb s "" then b else s
  | None => b
  end.

(** [handleDiscoveredPeripheral(peripheral)]. *)
Definition handleDiscoveredPeripheral `{UuidGen} (d : Device) (pl : BeurerPlatform)
  : BeurerPlatform :=
  let uuid := generate (device_uuid d) in
  match accessories pl !! uuid with
  | Some existingLight =>
      {| accessories := <[uuid := setPeripheral (device_link d) existingLight]> (accessories pl);
         scanning := false;
         registered := registered pl |}
  | None =>
      let accessory :=
        {| displayName := or_else (localName d) "SAD Lamp";
           UUID := uuid;
           peripheralUuid := Some (device_uuid d);
           manufacturer := Some "Beurer"%string;
           model := Some "TL100"%string;
           serialNumber := Some (device_uuid d);
           lightbulb := true |} in
      let light := setPeripheral (device_link d) (constructor true) in
      {| accessories := <[uuid := light]> (accessories pl);
         scanning := false;
         registered := accessory :: registered pl |}
  end.

(** What reaches the platform from homebridge and noble. *)
Inductive PlatformCall :=
  | ConfigureAccessory (accessory : Accessory)
  | StateChange (state : string)
  | Discover (d : Device).

Definition platform_step `{UuidGen} (c : PlatformCall) (pl : BeurerPlatform)
  : BeurerPlatform :=
  match c with
  | ConfigureAccessory accessory => configureAccessory accessory pl
  | StateChange state => onStateChange state pl
  | Discover d => handleDiscoveredPeripheral d pl
  end.

(** The platform after a sequence of calls, first call first. *)
Definition platform_run `{UuidGen} (calls : list PlatformCall) (pl : BeurerPlatform)
  : BeurerPlatform :=
  fold_left (fun pl c => platform_step c pl) calls pl.

(** Every registered accessory is in the map, has a Lightbulb service, and
    no UUID is registered twice. *)
Definition registry_ok (pl : BeurerPlatform) : Prop :=
  NoDup (map UUID (registered pl))
  /\ Forall (fun a => is_Some (accessories pl !! UUID a) /\ lightbulb a = true)
       (registered pl).

(** A UUID generator and a device to run examples with. *)
#[global] Instance sample_uuid : UuidGen := {| generate := fun s => String.append "acc-" s |}.

Definition sample_device : Device :=
  {| device_uuid := "c0ffee"; localName := Some "TL100"%string; device_link := steady_lamp |}.

Definition nameless_device : Device :=
  {| device_uuid := "decaf"; localName := None; device_link := steady_lamp |}.

(** ** Reading a frame back *)

(** The entries of a frame between its 6-entry header and its 2-entry
    terminator. *)
Definition payload_of (frame : list Z) : list Z :=
  take (length frame - 8) (drop 6 frame).

(** * Properties *)

(** ** Framer *)

Section Framer.

Implicit Types (payload bytes window : list Z).

Lemma set_inside bytes (i : nat) v :
  (i < length bytes)%nat -> Js.set bytes (Z.of_nat i) v = <[i := v]> bytes.
Proof.
  intros Hi. unfold Js.set.
  destruct (Z.ltb_spec (Z.of_nat i) 0) as [Hneg|_]; [lia|].
  destruct (Z.ltb_spec (Z.of_nat i) (Z.of_nat (length bytes))) as [_|Hge]; [|lia].
  now rewrite Nat2Z.id.
Qed.

Lemma set_first bytes v :
  (0 < length bytes)%nat -> Js.set bytes 0 v = <[0%nat := v]> bytes.
Proof. exact (set_inside bytes 0 v). Qed.

Lemma get_inside bytes (i : nat) x :
  bytes !! i = Some x -> Js.get bytes (Z.of_nat i) = x.
Proof.
  intros Hx. unfold Js.get.
  destruct (Z.ltb_spec (Z.of_nat i) 0) as [Hneg|_]; [lia|].
  now rewrite Nat2Z.id, Hx.
Qed.

(** The loop started at index [k] folds the next [n] entries. *)
Lemma checkCode_loop_fold bytes : forall (n k : nat) (b : Z),
  (k + n <= length bytes)%nat ->
  checkCode_loop n 0 (Z.of_nat k) b bytes
  = fold_left (fun acc x => Js.xor x acc) (take n (drop k bytes)) b.
Proof.
  induction n as [|n IH]; intros k b Hlen; [reflexivity|].
  destruct (lookup_lt_is_Some_2 bytes k ltac:(lia)) as [x Hx].
  rewrite (drop_S _ _ _ Hx). cbn [checkCode_loop take fold_left].
  rewrite Z.add_0_l, (get_inside _ _ _ Hx).
  replace (Z.of_nat k + 1) with (Z.of_nat (S k)) by lia.
  apply IH. lia.
Qed.

Lemma checkCode_window bytes (n : nat) :
  (n <= length bytes)%nat ->
  checkCode 0 (Z.of_nat n) bytes = xor_window (take n bytes).
Proof.
  intros Hn. unfold checkCode, xor_window.
  rewrite !Z.sub_0_r, Nat2Z.id.
  exact (checkCode_loop_fold bytes n 0 0 Hn).
Qed.

Lemma frame_js_xor payload :
  (3 <= length payload)%nat -> getBytes payload = frame_with xor_window payload.
Proof.
  intros Hlen. unfold getBytes, frame_with, with_length. cbv zeta.
  rewrite (set_first payload) by lia.
  rewrite length_insert.
  replace (Z.of_nat (length payload) - 2) with (Z.of_nat (length payload - 2)) by lia.
  rewrite set_inside by (rewrite length_insert; lia).
  rewrite checkCode_window by (rewrite length_insert; lia).
  rewrite <- app_assoc.
  now replace (Z.of_nat (length payload) + 8 - 4) with (Z.of_nat (length payload) + 4) by lia.
Qed.

(** On numbers below [2^31], [^] is the exclusive or of the binary
    expansions and stays below [2^31]. *)
Lemma toInt32_small z : small z -> Js.toInt32 z = z.
Proof. unfold small, Js.toInt32. intros Hz. rewrite Z.mod_small; lia. Qed.

Lemma lxor_small a b : small a -> small b -> small (Z.lxor a b).
Proof.
  unfold small. intros Ha Hb.
  assert (Hnn : 0 <= Z.lxor a b) by (apply Z.lxor_nonneg; lia).
  split; [exact Hnn|].
  destruct (Z.eq_dec (Z.lxor a b) 0) as [->|Hne]; [lia|].
  apply Z.log2_lt_pow2; [lia|].
  pose proof (Z.log2_lxor a b ltac:(lia) ltac:(lia)) as Hlog.
  assert (Hla : Z.log2 a < 31).
  { destruct (Z.eq_dec a 0) as [->|]; [reflexivity|]. apply Z.log2_lt_pow2; lia. }
  assert (Hlb : Z.log2 b < 31).
  { destruct (Z.eq_dec b 0) as [->|]; [reflexivity|]. apply Z.log2_lt_pow2; lia. }
  lia.
Qed.

Lemma xor_small a b : small a -> small b -> Js.xor a b = Z.lxor a b.
Proof. intros Ha Hb. unfold Js.xor. now rewrite !toInt32_small. Qed.

Lemma xor_all_small window : Forall small window -> small (xor_all window).
Proof.
  induction 1 as [|x l Hx _ IH]; [unfold small; simpl; lia|].
  change (xor_all (x :: l)) with (Z.lxor x (xor_all l)). now apply lxor_small.
Qed.

Lemma fold_xor_small window : forall b,
  Forall small window -> small b ->
  fold_left (fun acc x => Js.xor x acc) window b = Z.lxor (xor_all window) b.
Proof.
  induction window as [|x l IH]; intros b Hl Hb; [reflexivity|].
  inversion Hl as [|? ? Hx Hl']; subst. cbn [fold_left].
  rewrite (xor_small x b Hx Hb), IH by (auto using lxor_small).
  change (xor_all (x :: l)) with (Z.lxor x (xor_all l)).
  now rewrite (Z.lxor_comm x (xor_all l)), Z.lxor_assoc.
Qed.

Lemma xor_window_small window :
  Forall small window -> xor_window window = xor_all window.
Proof.
  intros Hw. unfold xor_window.
  rewrite fold_xor_small by (auto; unfold small; lia).
  apply Z.lxor_0_r.
Qed.

Lemma byte_small z : is_byte z -> small z.
Proof. unfold is_byte, small. lia. Qed.

Lemma frame_byte_xor payload :
  (3 <= length payload)%nat ->
  Z.of_nat (length payload) <= 2 ^ 31 ->
  Forall is_byte payload ->
  getBytes payload = frame_with xor_all payload.
Proof.
  intros Hlen Hmax Hbytes.
  rewrite frame_js_xor by exact Hlen.
  unfold frame_with. rewrite xor_window_small; [reflexivity|].
  apply Forall_take. unfold with_length.
  apply Forall_insert; [|unfold small; lia].
  eapply Forall_impl; [exact Hbytes|]. exact byte_small.
Qed.

(** Outside the range the callers use, the array assignments of
    JavaScript show: on the empty payload entry 0 is created, and the
    checksum goes to the property [-1], which is no entry. *)
Example getBytes_empty : getBytes [] = [254; 239; 10; 4; 171; 170; -1; 13; 10].
Proof. reflexivity. Qed.

Example getBytes_dim :
  getBytes dim_payload = [254; 239; 10; 10; 171; 170; 5; 49; 1; 80; 101; 85; 13; 10].
Proof. reflexivity. Qed.

End Framer.

(** C1.  For a payload of at least three entries [getBytes] returns the
    header [254, 239, 10, length + 4, 171, 170], then the payload with entry
    0 replaced by [length - 1] and the entry before the last replaced by the
    XOR of entries 0 to [length - 3] (taken after entry 0 was replaced),
    then [13, 10].  The XOR is the program's [^]; on a payload of bytes it
    is the exclusive or of the bytes.  The payload [0, 55, 1, 0, 85] gets
    4 in entry 0, and the two status-request bodies give back the two
    status-request frames. *)
Theorem getBytes_frame :
  (forall payload : list Z,
      (3 <= length payload)%nat -> getBytes payload = frame_with xor_window payload)
  /\ (forall payload : list Z,
         (3 <= length payload)%nat -> Z.of_nat (length payload) <= 2 ^ 31 ->
         Forall is_byte payload ->
         getBytes payload = frame_with xor_all payload)
  /\ getBytes [0; 55; 1; 0; 85] = [254; 239; 10; 9; 171; 170; 4; 55; 1; 50; 85; 13; 10]
  /\ getBytes [4; 48; 1; 53; 85] = whiteStatusCmd
  /\ getBytes [4; 48; 2; 54; 85] = colorStatusCmd.
Proof.
  split; [exact frame_js_xor|].
  split; [exact frame_byte_xor|].
  repeat split.
Qed.

Lemma getBytes_frame_witness :
  (3 <= length dim_payload)%nat
  /\ Z.of_nat (length dim_payload) <= 2 ^ 31
  /\ Forall is_byte dim_payload
  /\ getBytes dim_payload = frame_with xor_all dim_payload.
Proof.
  assert (Hlen : (3 <= length dim_payload)%nat) by (simpl; lia).
  assert (Hmax : Z.of_nat (length dim_payload) <= 2 ^ 31) by (simpl; lia).
  assert (Hbytes : Forall is_byte dim_payload)
    by (repeat constructor; unfold is_byte; lia).
  split; [exact Hlen|]. split; [exact Hmax|]. split; [exact Hbytes|].
  exact (proj1 (proj2 getBytes_frame) _ Hlen Hmax Hbytes).
Defined.

(** ** Running the promise monad in proofs *)

Ltac unfold_async :=
  unfold settle, request, gets, modify, reject, pending, mbind, async_bind,
    mret, async_ret in *.

(** Split on whatever the code branches on next. *)
Ltac branch :=
  match goal with
  | |- context [match ?x with _ => _ end] =>
      lazymatch x with
      | context [match _ with _ => _ end] => fail
      | _ => first [is_var x; destruct x | let E := fresh "E" in destruct x eqn:E]
      end
  end.

Ltac prefix_of l t :=
  match l with
  | t => constr:(@nil Event)
  | ?e :: ?l' => let p := prefix_of l' t in constr:(e :: p)
  end.

(** The observations of a run, read off the two traces. *)
Ltac observed :=
  match goal with
  | |- context [emitted ?w ?w' _] =>
      let l := eval cbn in (trace (rt w')) in
      let t := eval cbn in (trace (rt w)) in
      let p := prefix_of l t in
      let evs := eval cbn in (rev p) in
      constr:(evs)
  end.

Arguments getBytes : simpl never.
Arguments Js.Buffer_from : simpl never.

Section ConnectionManager.

Implicit Types (w : World) (bytes buffer : list Z).

Lemma emitted_trans w1 w2 w3 e1 e2 :
  emitted w1 w2 e1 -> emitted w2 w3 e2 -> emitted w1 w3 (e1 ++ e2).
Proof.
  unfold emitted. intros H1 H2.
  now rewrite H2, H1, rev_app_distr, <- app_assoc.
Qed.

Lemma same_lamp_refl w : same_lamp w w.
Proof. repeat split. Qed.

Lemma same_lamp_trans w1 w2 w3 :
  same_lamp w1 w2 -> same_lamp w2 w3 -> same_lamp w1 w3.
Proof. unfold same_lamp. intuition congruence. Qed.

Lemma same_timer_trans w1 w2 w3 :
  same_timer w1 w2 -> same_timer w2 w3 -> same_timer w1 w3.
Proof. unfold same_timer. intuition congruence. Qed.

(** *** [connect] *)

(** What [connect] records: its own entry, then Bluetooth requests only. *)
Lemma connect_events w :
  exists rest,
    emitted w (snd (connect w)) (CallConnect :: rest)
    /\ no_CallConnect rest /\ no_CallSend rest.
Proof.
  destruct w as [[] []]. unfold connect, requestState. unfold_async. cbn.
  repeat (branch; cbn);
    let evs := observed in
    match evs with
    | _ :: ?rest => exists rest; repeat split
    end.
Qed.

(** [connect] touches neither the lamp model nor the idle timer. *)
Lemma connect_frame w :
  same_lamp w (snd (connect w)) /\ same_timer w (snd (connect w)).
Proof.
  destruct w as [[] []]. unfold connect, requestState. unfold_async. cbn.
  repeat (branch; cbn); repeat split.
Qed.

Lemma connect_no_peripheral w :
  peripheral (self w) = None -> connect w = (Resolved tt, emit CallConnect w).
Proof.
  intros Hp. unfold connect. unfold_async. cbn. now rewrite Hp.
Qed.

(** *** The idle timer *)

Lemma reset_same_lamp w : same_lamp w (resetConnectionTimeout w).
Proof.
  unfold resetConnectionTimeout.
  destruct (connectionTimeoutToken (self w)); repeat split.
Qed.

Lemma reset_trace w : trace (rt (resetConnectionTimeout w)) = trace (rt w).
Proof.
  unfold resetConnectionTimeout.
  now destruct (connectionTimeoutToken (self w)).
Qed.

Lemma reset_link w :
  lampControl (self (resetConnectionTimeout w)) = lampControl (self w)
  /\ requests (rt (resetConnectionTimeout w)) = requests (rt w)
  /\ connected (self (resetConnectionTimeout w)) = connected (self w)
  /\ peripheral (self (resetConnectionTimeout w)) = peripheral (self w).
Proof.
  unfold resetConnectionTimeout.
  now destruct (connectionTimeoutToken (self w)).
Qed.

(** Clearing the accessory's own token leaves no timer pending. *)
Lemma clear_own_timer (ts : list (nat * Z)) (token : nat) :
  (forall t d, In (t, d) ts -> Some token = Some t) ->
  List.filter (fun t => negb (Nat.eqb (fst t) token)) ts = [].
Proof.
  induction ts as [|[t d] ts IH]; intros Hall; [reflexivity|].
  cbn [List.filter fst].
  assert (Ht : token = t) by (specialize (Hall t d (or_introl eq_refl)); congruence).
  subst t. rewrite Nat.eqb_refl. cbn [negb].
  apply IH. intros t d' Hin. apply (Hall t d'). now right.
Qed.

Lemma reset_armed w :
  single_timer w ->
  armed (resetConnectionTimeout w) (now (rt w) + connectionTimeout (self w)).
Proof.
  intros Hsingle. unfold single_timer in Hsingle.
  unfold resetConnectionTimeout, armed.
  destruct (connectionTimeoutToken (self w)) as [token|] eqn:Htoken; cbn.
  - exists (next_timer (rt w)). split; [reflexivity|].
    now rewrite (clear_own_timer (timers (rt w)) token Hsingle).
  - exists (next_timer (rt w)). split; [reflexivity|].
    destruct (timers (rt w)) as [|[t d] ts]; [reflexivity|].
    specialize (Hsingle t d (or_introl eq_refl)). discriminate.
Qed.

Lemma armed_single w d : armed w d -> single_timer w.
Proof.
  intros [token [Htoken Htimers]] t d' Hin.
  rewrite Htimers in Hin. destruct Hin as [Heq|[]].
  now inversion Heq; subst.
Qed.

Lemma same_timer_single w w' : same_timer w w' -> single_timer w -> single_timer w'.
Proof.
  intros (_ & Hts & _ & Htok & _) Hsingle t d. rewrite Hts, Htok. apply Hsingle.
Qed.

(** *** The transport write *)

Lemma writeControl_frame buffer w :
  same_lamp w (snd (writeControl buffer w))
  /\ same_timer w (snd (writeControl buffer w)).
Proof.
  unfold writeControl. unfold_async. cbn.
  repeat (branch; cbn); repeat split.
Qed.

Lemma writeControl_events buffer w :
  exists events,
    emitted w (snd (writeControl buffer w)) events
    /\ (events = [] \/ events = [ControlWrite buffer])
    /\ (fst (writeControl buffer w) = Resolved tt -> events = [ControlWrite buffer]).
Proof.
  unfold writeControl. unfold_async. cbn.
  repeat (branch; cbn);
    solve [ exists [ControlWrite buffer]; repeat split; auto
          | exists []; repeat split; auto; discriminate ].
Qed.

Lemma writeControl_up buffer w c :
  lampControl (self w) = Some c ->
  writeControl buffer w
  = settle (on_write c (requests (rt w))) (snd (request (ControlWrite buffer) w)).
Proof.
  intros Hc. unfold writeControl. unfold_async. cbn. now rewrite Hc.
Qed.

Lemma writeControl_down buffer w :
  lampControl (self w) = None -> writeControl buffer w = (Rejected TypeError, w).
Proof.
  intros Hc. unfold writeControl. unfold_async. cbn. now rewrite Hc.
Qed.

(** *** [send] *)

(** [send] read as one case analysis. *)
Lemma send_unfold bytes w :
  send bytes w =
  let w0 := emit (CallSend bytes) w in
  if needs_connect w then
    match connect w0 with
    | (Resolved _, w1) =>
        writeControl (Js.Buffer_from (getBytes bytes)) (resetConnectionTimeout w1)
    | (Rejected e, w1) => (Rejected e, w1)
    | (Pending, w1) => (Pending, w1)
    end
  else writeControl (Js.Buffer_from (getBytes bytes)) (resetConnectionTimeout w0).
Proof.
  unfold send, needs_connect. unfold_async. cbn.
  destruct (negb (connected (self w)) || negb (truthy (lampControl (self w)))).
  - now destruct (connect (emit (CallSend bytes) w)) as [[[]|e|] w1].
  - reflexivity.
Qed.

Lemma needs_connect_false w :
  needs_connect w = false ->
  connected (self w) = true /\ exists c, lampControl (self w) = Some c.
Proof.
  unfold needs_connect.
  destruct (connected (self w)), (lampControl (self w)) as [c|]; try discriminate.
  intros _. eauto.
Qed.

Lemma needs_connect_true w :
  connected (self w) = false \/ lampControl (self w) = None ->
  needs_connect w = true.
Proof.
  unfold needs_connect. intros [->| ->]; [reflexivity|].
  now destruct (connected (self w)).
Qed.

Lemma snd_settle r w : snd (settle r w) = w.
Proof. now destruct r. Qed.

Lemma send_same_lamp bytes w : same_lamp w (snd (send bytes w)).
Proof.
  rewrite send_unfold. cbv zeta.
  set (buffer := Js.Buffer_from (getBytes bytes)).
  destruct (needs_connect w).
  - pose proof (proj1 (connect_frame (emit (CallSend bytes) w))) as Hc.
    destruct (connect (emit (CallSend bytes) w)) as [[[]|e|] w1]; cbn [snd] in *;
      try exact Hc.
    eapply same_lamp_trans; [exact Hc|].
    eapply same_lamp_trans; [apply reset_same_lamp|apply writeControl_frame].
  - eapply (same_lamp_trans _ (resetConnectionTimeout (emit (CallSend bytes) w)));
      [apply (reset_same_lamp (emit (CallSend bytes) w))|apply writeControl_frame].
Qed.

(** What [send] records: its entry; one [connect] next if it had to
    reconnect and none otherwise; the frame last if it resolves. *)
Lemma send_events bytes w :
  exists rest,
    emitted w (snd (send bytes w)) (CallSend bytes :: rest)
    /\ no_CallSend rest
    /\ (if needs_connect w
        then exists rest', rest = CallConnect :: rest' /\ no_CallConnect rest'
        else rest = [ControlWrite (Js.Buffer_from (getBytes bytes))])
    /\ (fst (send bytes w) = Resolved tt ->
        exists before,
          rest = before ++ [ControlWrite (Js.Buffer_from (getBytes bytes))]).
Proof.
  rewrite send_unfold. cbv zeta.
  set (buffer := Js.Buffer_from (getBytes bytes)).
  set (w0 := emit (CallSend bytes) w).
  assert (H0 : emitted w w0 [CallSend bytes]) by reflexivity.
  destruct (needs_connect w) eqn:Hneeds.
  - destruct (connect_events w0) as (crest & Hc & Hnc & Hns).
    destruct (connect w0) as [[[]|e|] w1]; cbn [snd fst] in *.
    + destruct (writeControl_events buffer (resetConnectionTimeout w1))
        as (wevs & Hw & Hor & Hres).
      assert (Hw' : emitted w1 (snd (writeControl buffer (resetConnectionTimeout w1))) wevs).
      { unfold emitted in *. now rewrite Hw, reset_trace. }
      exists (CallConnect :: crest ++ wevs). repeat split.
      * exact (emitted_trans _ _ _ _ _ H0 (emitted_trans _ _ _ _ _ Hc Hw')).
      * unfold no_CallSend in *. cbn [forallb is_CallSend negb andb].
        rewrite forallb_app, Hns. now destruct Hor as [->| ->].
      * exists (crest ++ wevs). split; [reflexivity|].
        unfold no_CallConnect in *. rewrite forallb_app, Hnc.
        now destruct Hor as [->| ->].
      * intros Hok. exists (CallConnect :: crest). now rewrite (Hres Hok).
    + exists (CallConnect :: crest). repeat split; eauto; try discriminate.
      exact (emitted_trans _ _ _ _ _ H0 Hc).
    + exists (CallConnect :: crest). repeat split; eauto; try discriminate.
      exact (emitted_trans _ _ _ _ _ H0 Hc).
  - destruct (needs_connect_false w Hneeds) as (_ & c & Hctl).
    rewrite (writeControl_up buffer (resetConnectionTimeout w0) c)
      by (rewrite (proj1 (reset_link w0)); exact Hctl).
    exists [ControlWrite buffer]. repeat split.
    + unfold emitted. rewrite snd_settle. unfold request. cbn [snd rt trace].
      now rewrite reset_trace.
    + intros _. now exists [].
Qed.

(** A failure of the reconnection is the failure of [send]. *)
Lemma send_connect_rejected bytes w e w1 :
  needs_connect w = true ->
  connect (emit (CallSend bytes) w) = (Rejected e, w1) ->
  send bytes w = (Rejected e, w1).
Proof. intros Hneeds Hc. rewrite send_unfold. cbv zeta. now rewrite Hneeds, Hc. Qed.

(** With the link up, [send] is the timer reset and the write. *)
Lemma send_connected bytes w c :
  connected (self w) = true ->
  lampControl (self w) = Some c ->
  send bytes w
  = settle (on_write c (requests (rt w)))
      (snd (request (ControlWrite (Js.Buffer_from (getBytes bytes)))
              (resetConnectionTimeout (emit (CallSend bytes) w)))).
Proof.
  intros Hup Hctl. rewrite send_unfold. cbv zeta.
  unfold needs_connect. rewrite Hup, Hctl. cbn [negb truthy orb].
  rewrite (writeControl_up _ _ c) by (rewrite (proj1 (reset_link _)); exact Hctl).
  now rewrite (proj1 (proj2 (reset_link _))).
Qed.

Lemma same_timer_armed w w' d : same_timer w w' -> armed w d -> armed w' d.
Proof.
  intros (_ & Hts & _ & Htok & _) (token & Ht & Hl).
  exists token. now rewrite Htok, Hts.
Qed.

Lemma send_resets_timer bytes w :
  single_timer w -> passes_connect bytes w ->
  armed (snd (send bytes w)) (now (rt w) + connectionTimeout (self w)).
Proof.
  intros Hsingle Hpass. rewrite send_unfold. cbv zeta.
  set (buffer := Js.Buffer_from (getBytes bytes)).
  set (w0 := emit (CallSend bytes) w).
  assert (Hs0 : single_timer w0) by exact Hsingle.
  destruct (needs_connect w) eqn:Hneeds.
  - destruct Hpass as [Hno|Hok]; [congruence|]. fold w0 in Hok.
    pose proof (proj2 (connect_frame w0)) as Hframe.
    destruct (connect w0) as [[[]|e|] w1]; cbn [snd fst] in *; try discriminate.
    eapply same_timer_armed; [apply writeControl_frame|].
    destruct Hframe as (Hnow & Hts & Hnext & Htok & Hdelay).
    change (now (rt w)) with (now (rt w0)).
    change (connectionTimeout (self w)) with (connectionTimeout (self w0)).
    rewrite <- Hnow, <- Hdelay. apply reset_armed.
    eapply same_timer_single; [|exact Hs0]. repeat split; assumption.
  - eapply same_timer_armed; [apply writeControl_frame|].
    exact (reset_armed w0 Hs0).
Qed.

Lemma send_keeps_timer bytes w :
  needs_connect w = true ->
  fst (connect (emit (CallSend bytes) w)) <> Resolved tt ->
  same_timer w (snd (send bytes w)).
Proof.
  intros Hneeds Hfail. rewrite send_unfold. cbv zeta. rewrite Hneeds.
  pose proof (proj2 (connect_frame (emit (CallSend bytes) w))) as Hframe.
  destruct (connect (emit (CallSend bytes) w)) as [[[]|e|] w1]; cbn [snd fst] in *;
    [congruence|exact Hframe|exact Hframe].
Qed.

(** A lamp out of range: the rejection of [connect] is that of [send],
    nothing is written and no timer is armed. *)
Example send_out_of_range :
  let w := update (set_peripheral (Some absent_lamp)) (constructor true) in
  fst (send dim_payload w) = Rejected (BleError 2)
  /\ timers (rt (snd (send dim_payload w))) = []
  /\ emitted w (snd (send dim_payload w))
       [CallSend dim_payload; CallConnect; PeripheralConnect].
Proof. repeat split. Qed.

End ConnectionManager.

(** C3, as the code has it.  With no peripheral attached, [connect] makes no
    Bluetooth request and changes no field: it records its entry, and its
    promise resolves.  A [send] made in that state, there being no control
    characteristic either, therefore goes on to the write and is rejected
    there, with the [TypeError] of a method call on [null]. *)
Theorem connect_without_peripheral (w : World) :
  peripheral (self w) = None ->
  connect w = (Resolved tt, emit CallConnect w)
  /\ (forall bytes,
         lampControl (self w) = None -> fst (send bytes w) = Rejected TypeError).
Proof.
  intros Hp. split; [exact (connect_no_peripheral w Hp)|].
  intros bytes Hctl. rewrite send_unfold. cbv zeta.
  rewrite (needs_connect_true w (or_intror Hctl)).
  rewrite (connect_no_peripheral (emit (CallSend bytes) w) Hp).
  rewrite writeControl_down; [reflexivity|].
  rewrite (proj1 (reset_link _)). exact Hctl.
Qed.

Lemma connect_without_peripheral_witness :
  peripheral (self (constructor true)) = None
  /\ lampControl (self (constructor true)) = None
  /\ connect (constructor true) = (Resolved tt, emit CallConnect (constructor true))
  /\ fst (send dim_payload (constructor true)) = Rejected TypeError.
Proof.
  assert (Hp : peripheral (self (constructor true)) = None) by reflexivity.
  assert (Hctl : lampControl (self (constructor true)) = None) by reflexivity.
  split; [exact Hp|]. split; [exact Hctl|].
  split.
  - exact (proj1 (connect_without_peripheral (constructor true) Hp)).
  - exact (proj2 (connect_without_peripheral (constructor true) Hp) dim_payload Hctl).
Defined.

(** C3, as stated, fails on the freshly constructed accessory: no
    peripheral is attached and the promise of [connect] resolves; it is
    rejected with no error at all. *)
Lemma connect_without_peripheral_resolves :
  peripheral (self (constructor true)) = None
  /\ fst (connect (constructor true)) = Resolved tt
  /\ ~ (exists e, fst (connect (constructor true)) = Rejected e).
Proof.
  split; [reflexivity|]. split; [reflexivity|].
  intros [e He]. discriminate He.
Qed.

(** Past a reconnection that resolves, [send] is the timer reset and the
    write; one that never settles leaves [send] unsettled. *)
Lemma send_connect_resolved (bytes : list Z) (w w1 : World) :
  needs_connect w = true ->
  connect (emit (CallSend bytes) w) = (Resolved tt, w1) ->
  send bytes w
  = writeControl (Js.Buffer_from (getBytes bytes)) (resetConnectionTimeout w1).
Proof. intros Hneeds Hc. rewrite send_unfold. cbv zeta. now rewrite Hneeds, Hc. Qed.

Lemma send_connect_pending (bytes : list Z) (w w1 : World) :
  needs_connect w = true ->
  connect (emit (CallSend bytes) w) = (Pending, w1) ->
  send bytes w = (Pending, w1).
Proof. intros Hneeds Hc. rewrite send_unfold. cbv zeta. now rewrite Hneeds, Hc. Qed.

(** C8.  A [send] that finds the link down ([connected] false, or no
    control characteristic) enters [connect] exactly once, straight after
    its own entry and so before any write.  A rejection of [connect] is the
    rejection of [send] and a [connect] that never settles leaves [send]
    unsettled, nothing more being done in either case.  When [connect]
    resolves, [send] always goes on: it re-arms the idle timer and makes
    the transport write of the frame, the last thing it does, settling as
    that write does; only with no control characteristic to write to is it
    rejected there, with a [TypeError].  A [send] that finds the link up
    enters [connect] not at all: it re-arms the timer, writes the frame and
    settles as that write does. *)
Theorem send_reconnects_once (bytes : list Z) (w : World) :
  (connected (self w) = false \/ lampControl (self w) = None ->
   (exists rest,
       emitted w (snd (send bytes w)) (CallSend bytes :: CallConnect :: rest)
       /\ no_CallConnect rest
       /\ (fst (send bytes w) = Resolved tt ->
           exists before,
             rest = before ++ [ControlWrite (Js.Buffer_from (getBytes bytes))]))
   /\ (forall e w1,
          connect (emit (CallSend bytes) w) = (Rejected e, w1) ->
          send bytes w = (Rejected e, w1))
   /\ (forall w1,
          connect (emit (CallSend bytes) w) = (Pending, w1) ->
          send bytes w = (Pending, w1))
   /\ (forall w1,
          connect (emit (CallSend bytes) w) = (Resolved tt, w1) ->
          send bytes w
          = writeControl (Js.Buffer_from (getBytes bytes)) (resetConnectionTimeout w1)
          /\ (forall c,
                 lampControl (self w1) = Some c ->
                 send bytes w
                 = settle (on_write c (requests (rt w1)))
                     (snd (request (ControlWrite (Js.Buffer_from (getBytes bytes)))
                             (resetConnectionTimeout w1)))
                 /\ emitted w1 (snd (send bytes w))
                      [ControlWrite (Js.Buffer_from (getBytes bytes))])
          /\ (lampControl (self w1) = None ->
              send bytes w = (Rejected TypeError, resetConnectionTimeout w1))))
  /\ (forall c,
         connected (self w) = true -> lampControl (self w) = Some c ->
         send bytes w
         = settle (on_write c (requests (rt w)))
             (snd (request (ControlWrite (Js.Buffer_from (getBytes bytes)))
                     (resetConnectionTimeout (emit (CallSend bytes) w))))
         /\ emitted w (snd (send bytes w))
              [CallSend bytes; ControlWrite (Js.Buffer_from (getBytes bytes))]
         /\ fst (send bytes w) = fst (settle (on_write c (requests (rt w))) w)).
Proof.
  split.
  - intros Hdown. pose proof (needs_connect_true w Hdown) as Hneeds.
    split; [|split; [|split]].
    + destruct (send_events bytes w) as (rest & Hem & _ & Hconn & Hlast).
      rewrite Hneeds in Hconn. destruct Hconn as (rest' & -> & Hnc).
      exists rest'. split; [exact Hem|]. split; [exact Hnc|].
      intros Hok. destruct (Hlast Hok) as (before & Hb).
      destruct before as [|e before]; [discriminate Hb|].
      inversion Hb; subst. now exists before.
    + intros e w1. now apply send_connect_rejected.
    + intros w1. now apply send_connect_pending.
    + intros w1 Hc.
      pose proof (send_connect_resolved bytes w w1 Hneeds Hc) as Hrun.
      split; [exact Hrun|]. split.
      * intros c Hctl.
        assert (Hctl' : lampControl (self (resetConnectionTimeout w1)) = Some c)
          by (rewrite (proj1 (reset_link w1)); exact Hctl).
        rewrite Hrun, (writeControl_up _ _ c Hctl').
        rewrite (proj1 (proj2 (reset_link w1))).
        split; [reflexivity|].
        unfold emitted. rewrite snd_settle. unfold request. cbn [snd rt trace].
        now rewrite reset_trace.
      * intros Hctl. rewrite Hrun. apply writeControl_down.
        rewrite (proj1 (reset_link w1)). exact Hctl.
  - intros c Hup Hctl.
    destruct (send_events bytes w) as (rest & Hem & _ & Hconn & _).
    assert (Hneeds : needs_connect w = false)
      by (unfold needs_connect; now rewrite Hup, Hctl).
    rewrite Hneeds in Hconn. subst rest.
    split; [exact (send_connected bytes w c Hup Hctl)|].
    split; [exact Hem|].
    rewrite (send_connected bytes w c Hup Hctl).
    now destruct (on_write c (requests (rt w))).
Qed.

Lemma send_reconnects_once_witness :
  (connected (self lapsed) = false \/ lampControl (self lapsed) = None)
  /\ (exists rest,
         emitted lapsed (snd (send dim_payload lapsed))
           (CallSend dim_payload :: CallConnect :: rest)
         /\ no_CallConnect rest)
  /\ (exists w1,
         connect (emit (CallSend dim_payload) lapsed) = (Resolved tt, w1)
         /\ lampControl (self w1) = Some steady_control
         /\ send dim_payload lapsed
            = writeControl (Js.Buffer_from (getBytes dim_payload))
                (resetConnectionTimeout w1)
         /\ fst (send dim_payload lapsed) = Resolved tt
         /\ emitted w1 (snd (send dim_payload lapsed))
              [ControlWrite (Js.Buffer_from (getBytes dim_payload))])
  /\ fst (send dim_payload (update (set_peripheral (Some absent_lamp)) (constructor true)))
     = Rejected (BleError 2)
  /\ connected (self (paired steady_lamp)) = true
  /\ lampControl (self (paired steady_lamp)) = Some steady_control
  /\ emitted (paired steady_lamp) (snd (send dim_payload (paired steady_lamp)))
       [CallSend dim_payload; ControlWrite (Js.Buffer_from (getBytes dim_payload))].
Proof.
  assert (Hdown : connected (self lapsed) = false \/ lampControl (self lapsed) = None)
    by (left; reflexivity).
  assert (Hup : connected (self (paired steady_lamp)) = true) by reflexivity.
  assert (Hctl : lampControl (self (paired steady_lamp)) = Some steady_control)
    by reflexivity.
  destruct (proj1 (send_reconnects_once dim_payload lapsed) Hdown)
    as (Hevents & _ & _ & Hresolved).
  split; [exact Hdown|].
  split; [|split; [|split]].
  - destruct Hevents as (rest & Hem & Hnc & _).
    exists rest. split; assumption.
  - destruct (connect (emit (CallSend dim_payload) lapsed)) as [r w1] eqn:Hc.
    assert (Hr : r = Resolved tt)
      by (change r with (fst (r, w1)); rewrite <- Hc; vm_compute; reflexivity).
    subst r.
    assert (Hctl1 : lampControl (self w1) = Some steady_control)
      by (change w1 with (snd (Resolved tt, w1)); rewrite <- Hc; vm_compute; reflexivity).
    destruct (Hresolved w1 eq_refl) as (Hrun & Hwrite & _).
    destruct (Hwrite steady_control Hctl1) as (Hsettle & Hem).
    exists w1. split; [reflexivity|]. split; [exact Hctl1|].
    split; [exact Hrun|]. split; [|exact Hem].
    rewrite Hsettle. reflexivity.
  - set (w := update (set_peripheral (Some absent_lamp)) (constructor true)).
    assert (Hdown' : connected (self w) = false \/ lampControl (self w) = None)
      by (left; reflexivity).
    now rewrite (proj1 (proj2 (proj1 (send_reconnects_once dim_payload w) Hdown'))
                   (BleError 2) _ eq_refl).
  - split; [exact Hup|]. split; [exact Hctl|].
    exact (proj1 (proj2 (proj2 (send_reconnects_once dim_payload (paired steady_lamp))
                           steady_control Hup Hctl))).
Defined.

(** ** The lamp model *)

Arguments send : simpl never.

Section Lamp.

Context `{ColorConvert}.

Implicit Types (w : World) (value : bool).

Lemma setLampOn_noop w :
  colorOn (self w) = true -> setLampOn true w = (Resolved tt, w).
Proof. intros Hc. unfold setLampOn. unfold_async. cbn. now rewrite Hc. Qed.

(** Outside the no-op case [setLampOn] is one [send], made after the
    three assignments. *)
Lemma setLampOn_send value w :
  value && colorOn (self w) = false ->
  setLampOn value w
  = send (switch_payload value w)
      (update (set_colorOn false)
         (update (set_whiteOn value)
            (update (set_whichLampToControl (switch_channel value w)) w))).
Proof.
  intros Hgo. unfold setLampOn, switch_payload, switch_channel. unfold_async. cbn.
  rewrite Hgo.
  destruct value, (colorOn (self w)); try discriminate; reflexivity.
Qed.

Lemma setBrightness_send (level : Z) w :
  setBrightness level w
  = send [0; 49; if colorOn (self w) then 2 else 1; level; 0; 85]
      (if colorOn (self w)
       then update (set_whichLampToControl 2) (update (set_colorBrightness level) w)
       else update (set_whichLampToControl 1) (update (set_whiteBrightness level) w)).
Proof.
  unfold setBrightness. unfold_async. cbn.
  now destruct (colorOn (self w)).
Qed.

Lemma exclusive_same_lamp w w' : same_lamp w w' -> exclusive w -> exclusive w'.
Proof. unfold exclusive. intros (Hw & Hc & _). now rewrite Hw, Hc. Qed.

Lemma setLampOn_exclusive value w :
  exclusive w -> exclusive (snd (setLampOn value w)).
Proof.
  intros Hex. destruct (value && colorOn (self w)) eqn:Hgo.
  - apply andb_prop in Hgo as [-> Hc]. now rewrite (setLampOn_noop w Hc).
  - rewrite (setLampOn_send value w Hgo).
    eapply exclusive_same_lamp; [apply send_same_lamp|].
    unfold exclusive. cbn. apply andb_false_r.
Qed.

Lemma setBrightness_exclusive (level : Z) w :
  exclusive w -> exclusive (snd (setBrightness level w)).
Proof.
  intros Hex. rewrite setBrightness_send.
  eapply exclusive_same_lamp; [apply send_same_lamp|].
  now destruct (colorOn (self w)).
Qed.

Lemma setRgb_exclusive w : exclusive w -> exclusive (snd (setRgb w)).
Proof.
  intros Hex. unfold setRgb. unfold_async. cbn.
  destruct (colorOn (self w)) eqn:Hc; cbn.
  - destruct (hsl_rgb _ _ _) as [[r g] b].
    eapply exclusive_same_lamp; [apply send_same_lamp|]. reflexivity.
  - pose proof (send_same_lamp [4; 55; 2; 0; 85] w) as Hsame.
    destruct (send [4; 55; 2; 0; 85] w) as [[[]|e|] w1]; cbn [snd] in *.
    + destruct (hsl_rgb _ _ _) as [[r g] b].
      eapply exclusive_same_lamp; [apply send_same_lamp|]. reflexivity.
    + exact (exclusive_same_lamp _ _ Hsame Hex).
    + exact (exclusive_same_lamp _ _ Hsame Hex).
Qed.

Lemma perform_exclusive (c : Call) w :
  exclusive w -> exclusive (snd (perform c w)).
Proof.
  intros Hex. destruct c as [value|level|h|s]; cbn [perform].
  - now apply setLampOn_exclusive.
  - now apply setBrightness_exclusive.
  - exact (setRgb_exclusive (update (set_hue h) w) Hex).
  - exact (setRgb_exclusive (update (set_saturation s) w) Hex).
Qed.

End Lamp.

(** C2.  Whatever HomeKit calls and in whatever order, and however the
    Bluetooth side answers, the accessory never has both channels on after
    a call, provided it had not before the first one; the constructor's
    state, with or without a peripheral attached, is such a start. *)
Theorem channels_exclusive `{ColorConvert} :
  (forall (calls : list Call) (w : World),
      exclusive w -> Forall exclusive (states_after calls w))
  /\ (forall b, exclusive (constructor b))
  /\ (forall b p, exclusive (setPeripheral p (constructor b))).
Proof.
  split; [|split].
  - induction calls as [|c calls IH]; intros w Hex; cbn [states_after].
    + constructor.
    + pose proof (perform_exclusive c w Hex) as Hex'.
      constructor; [exact Hex'|]. exact (IH _ Hex').
  - reflexivity.
  - intros b p. unfold setPeripheral.
    eapply exclusive_same_lamp; [apply connect_frame|]. reflexivity.
Qed.

Lemma channels_exclusive_witness :
  exclusive (paired steady_lamp)
  /\ Forall exclusive
       (states_after
          [SetLampOn true; SetHue 120; SetBrightness 40; SetSaturation 80;
           SetLampOn true; SetLampOn false; SetLampOn true]
          (paired steady_lamp)).
Proof.
  assert (Hstart : exclusive (paired steady_lamp)) by reflexivity.
  split; [exact Hstart|].
  exact (proj1 channels_exclusive _ (paired steady_lamp) Hstart).
Defined.

(** C6.  [setLampOn(true)] with the colour channel on resolves at once and
    leaves the whole accessory as it was: every field of the lamp model is
    unchanged and nothing is recorded, no command and no write. *)
Theorem setLampOn_while_color (w : World) :
  colorOn (self w) = true ->
  setLampOn true w = (Resolved tt, w)
  /\ same_lamp w (snd (setLampOn true w))
  /\ emitted w (snd (setLampOn true w)) [].
Proof.
  intros Hc. rewrite (setLampOn_noop w Hc). repeat split.
Qed.

(** C7.  Outside that no-op case [setLampOn(value)] hands [send] one
    payload, [0, 55 or 53, channel, 0, 85], 55 to switch on and 53 to
    switch off, the channel being 2 when switching off with the colour
    channel on and 1 otherwise.  No other payload is sent; if the promise
    resolves the frame of that payload was the last write, and with the
    link up it is the only one. *)
Theorem setLampOn_command (value : bool) (w : World) :
  value && colorOn (self w) = false ->
  let payload :=
    [0; if value then 55 else 53;
     if negb value && colorOn (self w) then 2 else 1; 0; 85] in
  let w' := snd (setLampOn value w) in
  (exists rest,
      emitted w w' (CallSend payload :: rest)
      /\ no_CallSend rest
      /\ (fst (setLampOn value w) = Resolved tt ->
          exists before,
            rest = before ++ [ControlWrite (Js.Buffer_from (getBytes payload))]))
  /\ (needs_connect w = false ->
      emitted w w' [CallSend payload; ControlWrite (Js.Buffer_from (getBytes payload))])
  /\ whiteOn (self w') = value
  /\ colorOn (self w') = false.
Proof.
  intros Hgo payload w'. subst w'.
  change payload with (switch_payload value w).
  rewrite (setLampOn_send value w Hgo).
  set (w0 := update (set_colorOn false) _).
  destruct (send_events (switch_payload value w) w0) as (rest & Hem & Hns & Hconn & Hlast).
  pose proof (send_same_lamp (switch_payload value w) w0) as (Hwhite & Hcolor & _).
  split; [|split; [|split]].
  - exists rest. repeat split; assumption.
  - intros Hup. change (needs_connect w0 = false) in Hup.
    rewrite Hup in Hconn. now subst rest.
  - exact Hwhite.
  - exact Hcolor.
Qed.

Lemma setLampOn_command_witness :
  true && colorOn (self (paired steady_lamp)) = false
  /\ emitted (paired steady_lamp) (snd (setLampOn true (paired steady_lamp)))
       [CallSend [0; 55; 1; 0; 85];
        ControlWrite (Js.Buffer_from (getBytes [0; 55; 1; 0; 85]))].
Proof.
  assert (Hgo : true && colorOn (self (paired steady_lamp)) = false) by reflexivity.
  split; [exact Hgo|].
  exact (proj1 (proj2 (setLampOn_command true (paired steady_lamp) Hgo)) eq_refl).
Defined.

(** C10.  [setLampOn(false)] on a lamp that is already off is no no-op: it
    sets [whichLampToControl] to 1 and sends the off command of the white
    channel, [0, 53, 1, 0, 85], which with the link up goes out as the
    frame [254, 239, 10, 9, 171, 170, 4, 53, 1, 48, 85, 13, 10]; whereas
    [setLampOn(true)] with the colour channel on records nothing. *)
Theorem setLampOn_off_while_off (w : World) :
  whiteOn (self w) = false -> colorOn (self w) = false ->
  let w' := snd (setLampOn false w) in
  (exists rest,
      emitted w w' (CallSend [0; 53; 1; 0; 85] :: rest) /\ no_CallSend rest)
  /\ whichLampToControl (self w') = 1
  /\ (needs_connect w = false ->
      emitted w w'
        [CallSend [0; 53; 1; 0; 85];
         ControlWrite [254; 239; 10; 9; 171; 170; 4; 53; 1; 48; 85; 13; 10]])
  /\ (forall w2, colorOn (self w2) = true ->
                 emitted w2 (snd (setLampOn true w2)) []).
Proof.
  intros Hwhite Hcolor w'. subst w'.
  assert (Hgo : false && colorOn (self w) = false) by reflexivity.
  rewrite (setLampOn_send false w Hgo).
  unfold switch_payload, switch_channel. rewrite Hcolor. cbn [negb andb].
  set (w0 := update (set_colorOn false) _).
  destruct (send_events [0; 53; 1; 0; 85] w0) as (rest & Hem & Hns & Hconn & _).
  pose proof (send_same_lamp [0; 53; 1; 0; 85] w0) as (_ & _ & _ & _ & _ & _ & Hwhich).
  split; [|split; [|split]].
  - exists rest. split; assumption.
  - exact Hwhich.
  - intros Hup. change (needs_connect w0 = false) in Hup.
    rewrite Hup in Hconn. now subst rest.
  - intros w2 Hc2. now rewrite (setLampOn_noop w2 Hc2).
Qed.

Lemma setLampOn_off_while_off_witness :
  whiteOn (self (paired steady_lamp)) = false
  /\ colorOn (self (paired steady_lamp)) = false
  /\ whichLampToControl (self (snd (setLampOn false (paired steady_lamp)))) = 1
  /\ emitted (paired steady_lamp) (snd (setLampOn false (paired steady_lamp)))
       [CallSend [0; 53; 1; 0; 85];
        ControlWrite [254; 239; 10; 9; 171; 170; 4; 53; 1; 48; 85; 13; 10]].
Proof.
  assert (Hwhite : whiteOn (self (paired steady_lamp)) = false) by reflexivity.
  assert (Hcolor : colorOn (self (paired steady_lamp)) = false) by reflexivity.
  split; [exact Hwhite|]. split; [exact Hcolor|].
  pose proof (setLampOn_off_while_off (paired steady_lamp) Hwhite Hcolor) as Hoff.
  split; [exact (proj1 (proj2 Hoff))|].
  exact (proj1 (proj2 (proj2 Hoff)) eq_refl).
Defined.

Lemma setLampOn_while_color_witness :
  colorOn (self (snd (setHue 120 (paired steady_lamp)))) = true
  /\ setLampOn true (snd (setHue 120 (paired steady_lamp)))
     = (Resolved tt, snd (setHue 120 (paired steady_lamp))).
Proof.
  assert (Hc : colorOn (self (snd (setHue 120 (paired steady_lamp)))) = true)
    by (vm_compute; reflexivity).
  split; [exact Hc|].
  exact (proj1 (setLampOn_while_color _ Hc)).
Defined.

(** ** Notifications *)

Section Decoder.

Context `{ColorConvert}.

Implicit Types (data : list Z) (w : World).

Lemma byte_at_lookup data (i : nat) :
  (i < length data)%nat -> data !! i = Some (byte_at data i).
Proof.
  intros Hi. unfold byte_at.
  now destruct (lookup_lt_is_Some_2 data i Hi) as [x ->].
Qed.

Lemma flag_at data (i : nat) :
  (i < length data)%nat ->
  bool_decide (data !! i = Some 1) = (byte_at data i =? 1).
Proof.
  intros Hi. rewrite (byte_at_lookup data i Hi).
  destruct (Z.eqb_spec (byte_at data i) 1) as [->|Hne].
  - now apply bool_decide_eq_true_2.
  - apply bool_decide_eq_false_2. congruence.
Qed.

(** After its two assignments [handleNotification] only reports and
    re-arms the timer: the lamp model is what the assignments made it. *)
Lemma notify_tail_same_lamp w :
  same_lamp w (resetConnectionTimeout (updateHomeKitState w)).
Proof.
  eapply same_lamp_trans; [|apply reset_same_lamp].
  unfold updateHomeKitState. destruct (lightService (self w)); repeat split.
Qed.

Lemma handleNotification_color data w :
  data !! 8%nat = Some 2 -> (16 <= length data)%nat ->
  handleNotification data w
  = Some (resetConnectionTimeout (updateHomeKitState
      (let '(h, s, _) := rgb_hsl (byte_at data 13) (byte_at data 14) (byte_at data 15) in
       update (set_saturation s)
         (update (set_hue h)
            (update (set_colorOn (byte_at data 9 =? 1))
               (update (set_colorBrightness (byte_at data 10)) w)))))).
Proof.
  intros Hd Hlen. unfold handleNotification, rgb_hsl_at.
  rewrite (bool_decide_eq_true_2 _ Hd).
  rewrite (flag_at data 9) by lia.
  rewrite !byte_at_lookup by lia. cbn.
  now destruct (rgb_hsl _ _ _) as [[h s] l].
Qed.

Lemma handleNotification_white data w :
  data !! 8%nat <> Some 2 -> (11 <= length data)%nat ->
  handleNotification data w
  = Some (resetConnectionTimeout (updateHomeKitState
      (update (set_whiteOn (byte_at data 9 =? 1))
         (update (set_whiteBrightness (byte_at data 10)) w)))).
Proof.
  intros Hd Hlen. unfold handleNotification.
  rewrite (bool_decide_eq_false_2 _ Hd).
  rewrite (flag_at data 9) by lia.
  rewrite !byte_at_lookup by lia. reflexivity.
Qed.

End Decoder.

(** C9.  On a frame long enough for the bytes its branch reads,
    [handleNotification] returns, and: if byte 8 is 2 it sets
    [colorBrightness] to byte 10, [colorOn] to whether byte 9 is 1, [hue]
    and [saturation] to the first two components of the HSL conversion of
    bytes 13 to 15, and leaves [whiteOn], [whiteBrightness] and
    [whichLampToControl] alone; otherwise it sets [whiteBrightness] to byte
    10 and [whiteOn] to whether byte 9 is 1, and leaves [colorOn],
    [colorBrightness], [hue], [saturation] and [whichLampToControl] alone. *)
Theorem handleNotification_routing `{ColorConvert} (data : list Z) (w : World) :
  sufficient data ->
  exists w',
    handleNotification data w = Some w'
    /\ (data !! 8%nat = Some 2 ->
        colorBrightness (self w') = byte_at data 10
        /\ colorOn (self w') = (byte_at data 9 =? 1)
        /\ hue (self w')
           = fst (fst (rgb_hsl (byte_at data 13) (byte_at data 14) (byte_at data 15)))
        /\ saturation (self w')
           = snd (fst (rgb_hsl (byte_at data 13) (byte_at data 14) (byte_at data 15)))
        /\ whiteOn (self w') = whiteOn (self w)
        /\ whiteBrightness (self w') = whiteBrightness (self w)
        /\ whichLampToControl (self w') = whichLampToControl (self w))
    /\ (data !! 8%nat <> Some 2 ->
        whiteBrightness (self w') = byte_at data 10
        /\ whiteOn (self w') = (byte_at data 9 =? 1)
        /\ colorOn (self w') = colorOn (self w)
        /\ colorBrightness (self w') = colorBrightness (self w)
        /\ hue (self w') = hue (self w)
        /\ saturation (self w') = saturation (self w)
        /\ whichLampToControl (self w') = whichLampToControl (self w)).
Proof.
  unfold sufficient. intros Hlen.
  destruct (bool_decide (data !! 8%nat = Some 2)) eqn:Hd.
  - apply bool_decide_eq_true_1 in Hd.
    rewrite (handleNotification_color data w Hd Hlen).
    eexists. split; [reflexivity|]. split; [|intros Hne; contradiction].
    intros _.
    match goal with
    | |- context [resetConnectionTimeout (updateHomeKitState ?w0)] =>
        pose proof (notify_tail_same_lamp w0) as (Hwo & Hco & Hwb & Hcb & Hh & Hs & Hwh)
    end.
    rewrite Hwo, Hco, Hwb, Hcb, Hh, Hs, Hwh.
    destruct (rgb_hsl _ _ _) as [[h s] l]. repeat split.
  - apply bool_decide_eq_false_1 in Hd.
    rewrite (handleNotification_white data w Hd Hlen).
    eexists. split; [reflexivity|]. split; [intros He; contradiction|].
    intros _.
    match goal with
    | |- context [resetConnectionTimeout (updateHomeKitState ?w0)] =>
        pose proof (notify_tail_same_lamp w0) as (Hwo & Hco & Hwb & Hcb & Hh & Hs & Hwh)
    end.
    rewrite Hwo, Hco, Hwb, Hcb, Hh, Hs, Hwh. repeat split.
Qed.

Lemma handleNotification_routing_witness :
  sufficient color_on_red
  /\ sufficient white_off_30
  /\ (exists w',
         handleNotification color_on_red (paired steady_lamp) = Some w'
         /\ colorBrightness (self w') = 70
         /\ colorOn (self w') = true
         /\ hue (self w') = 0
         /\ saturation (self w') = 100
         /\ whiteOn (self w') = false
         /\ whiteBrightness (self w') = 50)
  /\ (exists w',
         handleNotification white_off_30 (paired steady_lamp) = Some w'
         /\ whiteBrightness (self w') = 30
         /\ whiteOn (self w') = false
         /\ colorOn (self w') = false
         /\ colorBrightness (self w') = 50).
Proof.
  assert (Hcolor : sufficient color_on_red) by (vm_compute; lia).
  assert (Hwhite : sufficient white_off_30) by (vm_compute; lia).
  split; [exact Hcolor|]. split; [exact Hwhite|]. split.
  - destruct (handleNotification_routing color_on_red (paired steady_lamp) Hcolor)
      as (w' & Hrun & Hset & _).
    exists w'. split; [exact Hrun|].
    destruct (Hset eq_refl) as (Hcb & Hco & Hh & Hs & Hwo & Hwb & _).
    rewrite Hcb, Hco, Hh, Hs, Hwo, Hwb. repeat split.
  - destruct (handleNotification_routing white_off_30 (paired steady_lamp) Hwhite)
      as (w' & Hrun & _ & Hset).
    exists w'. split; [exact Hrun|].
    destruct (Hset ltac:(discriminate)) as (Hwb & Hwo & Hco & Hcb & _).
    rewrite Hwb, Hwo, Hco, Hcb. repeat split.
Defined.

(** C4.  [getBrightness] returns the brightness of the channel that is on,
    the white one's when neither is.  [updateHomeKitState] does not push
    that value when neither is on: after the status notification "white
    off, 30 percent" on a fresh accessory both channels are off, the white
    brightness and [getBrightness] are 30, and the brightness pushed to
    HomeKit is 50, the colour channel's. *)
Theorem pushed_brightness_when_off `{ColorConvert} :
  (forall l, getBrightness l = visible_brightness l)
  /\ exists w,
       handleNotification white_off_30 (constructor true) = Some w
       /\ whiteOn (self w) = false
       /\ colorOn (self w) = false
       /\ visible_brightness (self w) = 30
       /\ getBrightness (self w) = 30
       /\ pushed_brightness (trace (rt w)) = Some 50.
Proof.
  split.
  - intros l. unfold getBrightness, visible_brightness.
    now destruct (colorOn l), (whiteOn l).
  - eexists. split; [reflexivity|]. repeat split.
Qed.

(** ** The idle timer over time *)

Section IdleTimer.

Context `{ColorConvert}.

Implicit Types (w : World) (bytes data : list Z).

Lemma same_timer_idle w w' : same_timer w w' -> idle_inv w -> idle_inv w'.
Proof.
  intros Hsame [Hdelay Hsingle]. split.
  - destruct Hsame as (_ & _ & _ & _ & Hd). now rewrite Hd.
  - exact (same_timer_single w w' Hsame Hsingle).
Qed.

Lemma reset_delay w :
  connectionTimeout (self (resetConnectionTimeout w)) = connectionTimeout (self w)
  /\ now (rt (resetConnectionTimeout w)) = now (rt w).
Proof.
  unfold resetConnectionTimeout.
  now destruct (connectionTimeoutToken (self w)).
Qed.

Lemma reset_idle w : idle_inv w -> idle_inv (resetConnectionTimeout w).
Proof.
  intros [Hdelay Hsingle]. split.
  - now rewrite (proj1 (reset_delay w)).
  - exact (armed_single _ _ (reset_armed w Hsingle)).
Qed.

Lemma send_idle bytes w : idle_inv w -> idle_inv (snd (send bytes w)).
Proof.
  intros Hinv. rewrite send_unfold. cbv zeta.
  set (w0 := emit (CallSend bytes) w).
  assert (H0 : idle_inv w0) by exact Hinv.
  destruct (needs_connect w).
  - pose proof (proj2 (connect_frame w0)) as Hframe.
    destruct (connect w0) as [[[]|e|] w1]; cbn [snd] in *;
      try exact (same_timer_idle _ _ Hframe H0).
    eapply same_timer_idle; [apply writeControl_frame|].
    apply reset_idle. exact (same_timer_idle _ _ Hframe H0).
  - eapply same_timer_idle; [apply writeControl_frame|].
    now apply reset_idle.
Qed.

Lemma setRgb_idle w : idle_inv w -> idle_inv (snd (setRgb w)).
Proof.
  intros Hinv. unfold setRgb. unfold_async. cbn.
  destruct (colorOn (self w)); cbn.
  - destruct (hsl_rgb _ _ _) as [[r g] b]. now apply send_idle.
  - pose proof (send_idle [4; 55; 2; 0; 85] w Hinv) as Hinv1.
    destruct (send [4; 55; 2; 0; 85] w) as [[[]|e|] w1]; cbn [snd] in *;
      try exact Hinv1.
    destruct (hsl_rgb _ _ _) as [[r g] b]. now apply send_idle.
Qed.

Lemma perform_idle (c : Call) w : idle_inv w -> idle_inv (snd (perform c w)).
Proof.
  intros Hinv. destruct c as [value|level|h|s]; cbn [perform].
  - destruct (value && colorOn (self w)) eqn:Hgo.
    + apply andb_prop in Hgo as [-> Hc]. now rewrite (setLampOn_noop w Hc).
    + rewrite (setLampOn_send value w Hgo). now apply send_idle.
  - rewrite setBrightness_send. apply send_idle.
    now destruct (colorOn (self w)).
  - exact (setRgb_idle (update (set_hue h) w) Hinv).
  - exact (setRgb_idle (update (set_saturation s) w) Hinv).
Qed.

(** What [handleNotification] leaves of the timer: re-armed from now. *)
Lemma handleNotification_timer data w w' :
  handleNotification data w = Some w' ->
  exists w0,
    w' = resetConnectionTimeout w0 /\ same_timer w w0.
Proof.
  unfold handleNotification. intros Hrun.
  destruct (bool_decide (data !! 8%nat = Some 2)).
  - destruct (rgb_hsl_at data) as [hsl|]; [|discriminate].
    destruct (data !! 10%nat) as [level|]; [|discriminate].
    cbn in Hrun. inversion Hrun. eexists. split; [reflexivity|].
    unfold updateHomeKitState.
    destruct hsl as [[[h s] l]|]; cbn; destruct (lightService (self w)); repeat split.
  - destruct (data !! 10%nat) as [level|]; [|discriminate].
    cbn in Hrun. inversion Hrun. eexists. split; [reflexivity|].
    unfold updateHomeKitState. cbn. destruct (lightService (self w)); repeat split.
Qed.

Lemma handleNotification_armed data w w' :
  single_timer w -> handleNotification data w = Some w' ->
  armed w' (now (rt w) + connectionTimeout (self w)).
Proof.
  intros Hsingle Hrun.
  destruct (handleNotification_timer data w w' Hrun) as (w0 & -> & Hsame).
  pose proof Hsame as (Hnow & _ & _ & _ & Hdelay).
  rewrite <- Hnow, <- Hdelay. apply reset_armed.
  exact (same_timer_single _ _ Hsame Hsingle).
Qed.

Lemma handleNotification_idle data w w' :
  idle_inv w -> handleNotification data w = Some w' -> idle_inv w'.
Proof.
  intros Hinv Hrun.
  destruct (handleNotification_timer data w w' Hrun) as (w0 & -> & Hsame).
  apply reset_idle. exact (same_timer_idle _ _ Hsame Hinv).
Qed.

(** Timers that fire only run [disconnect], which knows nothing of
    timers. *)
Lemma fired_frame (due : list (nat * Z)) w :
  let w' := fold_right (fun _ w' => disconnect w') w due in
  timers (rt w') = timers (rt w)
  /\ connectionTimeoutToken (self w') = connectionTimeoutToken (self w)
  /\ connectionTimeout (self w') = connectionTimeout (self w).
Proof.
  induction due as [|t due IH]; cbn [fold_right]; [repeat split|].
  destruct IH as (Hts & Htok & Hdelay).
  set (w1 := fold_right _ w due) in *.
  unfold disconnect.
  destruct (peripheral (self w1)); [destruct (connected (self w1))|]; cbn;
    repeat split; assumption.
Qed.

Lemma elapse_idle (dt : Z) w : idle_inv w -> idle_inv (elapse dt w).
Proof.
  intros [Hdelay Hsingle]. unfold elapse.
  match goal with
  | |- idle_inv (fold_right _ ?base ?due) =>
      pose proof (fired_frame due base) as (Hts & Htok & Hd)
  end.
  split.
  - now rewrite Hd.
  - intros token deadline. rewrite Hts, Htok. cbn.
    intros Hin. apply filter_In in Hin as [Hin _].
    exact (Hsingle token deadline Hin).
Qed.

Lemma setPeripheral_idle (p : Peripheral) w :
  idle_inv w -> idle_inv (setPeripheral p w).
Proof.
  intros Hinv. unfold setPeripheral.
  eapply same_timer_idle; [apply connect_frame|]. exact Hinv.
Qed.

(** The armed timer fires once its deadline is reached... *)
Lemma elapse_fires w (d dt : Z) :
  armed w d -> connected (self w) = true -> is_Some (peripheral (self w)) ->
  d <= now (rt w) + dt ->
  connected (self (elapse dt w)) = false
  /\ timers (rt (elapse dt w)) = []
  /\ emitted w (elapse dt w) [PeripheralDisconnect].
Proof.
  intros (token & Htok & Hts) Hup [p Hp] Hdue. unfold elapse, emitted.
  rewrite Hts. cbn [List.filter snd].
  destruct (Z.leb_spec d (now (rt w) + dt)) as [_|Hlt]; [|lia].
  cbn [negb fold_right]. unfold disconnect. cbn [self peripheral connected].
  rewrite Hp, Hup. repeat split.
Qed.

(** ... and not before. *)
Lemma elapse_waits w (d dt : Z) :
  armed w d -> now (rt w) + dt < d ->
  self (elapse dt w) = self w
  /\ armed (elapse dt w) d
  /\ emitted w (elapse dt w) [].
Proof.
  intros (token & Htok & Hts) Hearly. unfold elapse, emitted, armed.
  rewrite Hts. cbn [List.filter snd].
  destruct (Z.leb_spec d (now (rt w) + dt)) as [Hle|_]; [lia|].
  cbn. repeat split. exists token. now split.
Qed.

End IdleTimer.

(** *** Every notification *)

Section EveryNotification.

Context `{ColorConvert}.

Implicit Types (w : World) (data : list Z).

(** Whatever the frame, the notification takes the accessory somewhere. *)
Lemma notified_total data w : exists w', notified data w w'.
Proof.
  unfold notified. destruct (handleNotification data w) as [w1|].
  - now exists w1.
  - exists (resetConnectionTimeout w). exists w. split; [|reflexivity].
    repeat split.
Qed.

Lemma notified_decoded data w w' :
  handleNotification data w = Some w' -> notified data w w'.
Proof. unfold notified. now intros ->. Qed.

Lemma notified_timer data w w' :
  notified data w w' ->
  exists w0, w' = resetConnectionTimeout w0 /\ same_timer w w0.
Proof.
  unfold notified. destruct (handleNotification data w) as [w1|] eqn:Hrun.
  - intros ->. exact (handleNotification_timer data w w1 Hrun).
  - intros (w0 & Hlink & ->). exists w0. split; [reflexivity|].
    apply Hlink.
Qed.

Lemma notified_armed data w w' :
  single_timer w -> notified data w w' ->
  armed w' (now (rt w) + connectionTimeout (self w)).
Proof.
  intros Hsingle Hrun.
  destruct (notified_timer data w w' Hrun) as (w0 & -> & Hsame).
  pose proof Hsame as (Hnow & _ & _ & _ & Hdelay).
  rewrite <- Hnow, <- Hdelay. apply reset_armed.
  exact (same_timer_single _ _ Hsame Hsingle).
Qed.

Lemma notified_idle data w w' :
  idle_inv w -> notified data w w' -> idle_inv w'.
Proof.
  intros Hinv Hrun.
  destruct (notified_timer data w w' Hrun) as (w0 & -> & Hsame).
  apply reset_idle. exact (same_timer_idle _ _ Hsame Hinv).
Qed.

Lemma handleNotification_link data w w' :
  handleNotification data w = Some w' ->
  exists w0, w' = resetConnectionTimeout w0 /\ same_link w w0.
Proof.
  unfold handleNotification. intros Hrun.
  destruct (bool_decide (data !! 8%nat = Some 2)).
  - destruct (rgb_hsl_at data) as [hsl|]; [|discriminate].
    destruct (data !! 10%nat) as [level|]; [|discriminate].
    cbn in Hrun. injection Hrun as <-. eexists. split; [reflexivity|].
    unfold updateHomeKitState.
    destruct hsl as [[[h s] l]|]; cbn; destruct (lightService (self w)); repeat split.
  - destruct (data !! 10%nat) as [level|]; [|discriminate].
    cbn in Hrun. injection Hrun as <-. eexists. split; [reflexivity|].
    unfold updateHomeKitState. cbn. destruct (lightService (self w)); repeat split.
Qed.

(** A notification leaves the connection as it is. *)
Lemma notified_connection data w w' :
  notified data w w' ->
  connected (self w') = connected (self w)
  /\ peripheral (self w') = peripheral (self w).
Proof.
  intros Hrun.
  assert (Hlink : exists w0, w' = resetConnectionTimeout w0 /\ same_link w w0).
  { unfold notified in Hrun.
    destruct (handleNotification data w) as [w1|] eqn:Hdec.
    - subst w'. exact (handleNotification_link data w w1 Hdec).
    - destruct Hrun as (w0 & Hlink & ->). now exists w0. }
  destruct Hlink as (w0 & -> & _ & Hp & _ & Hc & _).
  destruct (reset_link w0) as (_ & _ & Hc' & Hp').
  now rewrite Hc', Hp', Hc, Hp.
Qed.

End EveryNotification.




(** * Further properties *)

(** ** More on the framer *)

Section FramerWindow.

Implicit Types (payload bytes window : list Z).

(** The loop of [checkCode] for any [start]: it reads [bytes[start + i]],
    so from the index [k = start + i] on. *)
Lemma checkCode_loop_from bytes (start : Z) : forall (n k : nat) (i b : Z),
  (k + n <= length bytes)%nat -> start + i = Z.of_nat k ->
  checkCode_loop n start i b bytes
  = fold_left (fun acc x => Js.xor x acc) (take n (drop k bytes)) b.
Proof.
  induction n as [|n IH]; intros k i b Hlen Hk; [reflexivity|].
  destruct (lookup_lt_is_Some_2 bytes k ltac:(lia)) as [x Hx].
  rewrite (drop_S _ _ _ Hx). cbn [checkCode_loop take fold_left].
  rewrite Hk, (get_inside _ _ _ Hx).
  apply IH; lia.
Qed.

Lemma xor_all_app window1 window2 :
  xor_all (window1 ++ window2) = Z.lxor (xor_all window1) (xor_all window2).
Proof.
  unfold xor_all. induction window1 as [|x l IH]; cbn [foldr app].
  - now rewrite Z.lxor_0_l.
  - now rewrite IH, Z.lxor_assoc.
Qed.

Lemma xor_all_insert window : forall (i : nat) (x b : Z),
  window !! i = Some x ->
  xor_all (<[i := b]> window) = Z.lxor (xor_all window) (Z.lxor x b).
Proof.
  induction window as [|y l IH]; intros i x b Hx; [discriminate|].
  destruct i as [|i]; cbn in Hx.
  - inversion Hx; subst y. change (<[0%nat := b]> (x :: l)) with (b :: l).
    change (xor_all (b :: l)) with (Z.lxor b (xor_all l)).
    change (xor_all (x :: l)) with (Z.lxor x (xor_all l)).
    rewrite (Z.lxor_comm x (xor_all l)), Z.lxor_assoc.
    rewrite <- (Z.lxor_assoc x x b), Z.lxor_nilpotent, Z.lxor_0_l.
    apply Z.lxor_comm.
  - change (<[S i := b]> (y :: l)) with (y :: <[i := b]> l).
    change (xor_all (y :: <[i := b]> l)) with (Z.lxor y (xor_all (<[i := b]> l))).
    change (xor_all (y :: l)) with (Z.lxor y (xor_all l)).
    now rewrite (IH i x b Hx), Z.lxor_assoc.
Qed.

Lemma lxor_byte a b : is_byte a -> is_byte b -> is_byte (Z.lxor a b).
Proof.
  unfold is_byte. intros Ha Hb.
  assert (Hnn : 0 <= Z.lxor a b) by (apply Z.lxor_nonneg; lia).
  split; [exact Hnn|].
  destruct (Z.eq_dec (Z.lxor a b) 0) as [->|Hne]; [lia|].
  change 256 with (2 ^ 8). apply Z.log2_lt_pow2; [lia|].
  pose proof (Z.log2_lxor a b ltac:(lia) ltac:(lia)) as Hlog.
  assert (Hla : Z.log2 a < 8).
  { destruct (Z.eq_dec a 0) as [->|]; [reflexivity|]. apply Z.log2_lt_pow2; lia. }
  assert (Hlb : Z.log2 b < 8).
  { destruct (Z.eq_dec b 0) as [->|]; [reflexivity|]. apply Z.log2_lt_pow2; lia. }
  lia.
Qed.

Lemma xor_all_byte window : Forall is_byte window -> is_byte (xor_all window).
Proof.
  induction 1 as [|x l Hx _ IH]; [unfold is_byte; simpl; lia|].
  change (xor_all (x :: l)) with (Z.lxor x (xor_all l)). now apply lxor_byte.
Qed.

(** The rewritten payload inside a frame. *)
Lemma payload_of_frame (n4 : Z) (body : list Z) :
  payload_of ([254; 239; 10; n4; 171; 170] ++ body ++ [13; 10]) = body.
Proof.
  unfold payload_of. cbn [app drop].
  rewrite !length_cons, length_app. cbn [length].
  replace (S (S (S (S (S (S (length body + 2)))))) - 8)%nat with (length body) by lia.
  apply take_app_length.
Qed.

Lemma length_with_length payload : length (with_length payload) = length payload.
Proof. unfold with_length. apply length_insert. Qed.

End FramerWindow.

(** X1.  [checkCode(start, finish, bytes)] with a non-negative [start] and
    [finish] inside the array folds the entries at the indices from
    [2 * start] to [finish - 1], not those from [start]: the loop variable
    begins at [start] and is added to [start] again.  When [finish] is at
    most [2 * start] nothing is folded and the result is 0. *)
Theorem checkCode_doubled_start (start finish : Z) (bytes : list Z) :
  0 <= start -> finish <= Z.of_nat (length bytes) ->
  checkCode start finish bytes
  = xor_window (take (Z.to_nat (finish - 2 * start)) (drop (Z.to_nat (2 * start)) bytes))
  /\ (finish <= 2 * start -> checkCode start finish bytes = 0).
Proof.
  intros Hstart Hfinish.
  assert (Hcount : finish - start - start = finish - 2 * start) by lia.
  split.
  - unfold checkCode, xor_window. rewrite Hcount.
    destruct (Z.le_gt_cases finish (2 * start)) as [Hle|Hgt].
    + replace (Z.to_nat (finish - 2 * start)) with 0%nat by lia. reflexivity.
    + apply checkCode_loop_from; lia.
  - intros Hle. unfold checkCode. rewrite Hcount.
    now replace (Z.to_nat (finish - 2 * start)) with 0%nat by lia.
Qed.

Lemma checkCode_doubled_start_witness :
  0 <= 1
  /\ 5 <= Z.of_nat (length dim_payload)
  /\ checkCode 1 5 dim_payload = xor_window [1; 80; 0]
  /\ checkCode 0 5 dim_payload = xor_window [0; 49; 1; 80; 0].
Proof.
  assert (H0 : 0 <= 0) by lia.
  assert (H1 : 0 <= 1) by lia.
  assert (Hlen : 5 <= Z.of_nat (length dim_payload)) by (vm_compute; discriminate).
  split; [exact H1|]. split; [exact Hlen|]. split.
  - exact (proj1 (checkCode_doubled_start 1 5 dim_payload H1 Hlen)).
  - exact (proj1 (checkCode_doubled_start 0 5 dim_payload H0 Hlen)).
Defined.

(** X2.  [getBytes] does not look at the two placeholder entries of its
    input: whatever stands at index 0 and at the index before the last, the
    frame is the same. *)
Theorem getBytes_ignores_placeholders (payload : list Z) (x y : Z) :
  (3 <= length payload)%nat ->
  getBytes (<[0%nat := x]> (<[(length payload - 2)%nat := y]> payload))
  = getBytes payload.
Proof.
  intros Hlen.
  rewrite !frame_js_xor by (rewrite ?length_insert; exact Hlen).
  unfold frame_with, with_length. rewrite !length_insert.
  rewrite list_insert_insert_eq.
  rewrite (list_insert_insert_ne _ 0 (length payload - 2)) by lia.
  rewrite take_insert_ge by lia.
  now rewrite list_insert_insert_eq.
Qed.

Lemma getBytes_ignores_placeholders_witness :
  (3 <= length dim_payload)%nat
  /\ getBytes [5; 49; 1; 80; 101; 85] = getBytes dim_payload.
Proof.
  assert (Hlen : (3 <= length dim_payload)%nat) by (simpl; lia).
  split; [exact Hlen|].
  exact (getBytes_ignores_placeholders dim_payload 5 101 Hlen).
Defined.

(** X3.  A frame read back and encoded again is the same frame: the entries
    between header and terminator of [getBytes(payload)] are as long as the
    payload, and [getBytes] of them is [getBytes(payload)]. *)
Theorem getBytes_reencode (payload : list Z) :
  (3 <= length payload)%nat ->
  length (payload_of (getBytes payload)) = length payload
  /\ getBytes (payload_of (getBytes payload)) = getBytes payload.
Proof.
  intros Hlen. rewrite (frame_js_xor payload Hlen).
  unfold frame_with. rewrite payload_of_frame.
  set (ck := xor_window _).
  assert (Hbody : <[(length payload - 2)%nat := ck]> (with_length payload)
                  = <[0%nat := Z.of_nat (length payload) - 1]>
                      (<[(length payload - 2)%nat := ck]> payload)).
  { unfold with_length. apply list_insert_insert_ne. lia. }
  split.
  - rewrite length_insert. apply length_with_length.
  - rewrite Hbody. rewrite (getBytes_ignores_placeholders payload _ ck Hlen).
    rewrite (frame_js_xor payload Hlen). unfold frame_with. fold ck.
    now rewrite Hbody.
Qed.

Lemma getBytes_reencode_witness :
  (3 <= length dim_payload)%nat
  /\ payload_of (getBytes dim_payload) = [5; 49; 1; 80; 101; 85]
  /\ getBytes (payload_of (getBytes dim_payload)) = getBytes dim_payload.
Proof.
  assert (Hlen : (3 <= length dim_payload)%nat) by (simpl; lia).
  split; [exact Hlen|]. split; [reflexivity|].
  exact (proj2 (getBytes_reencode dim_payload Hlen)).
Defined.

Lemma length_Js_set (a : list Z) (i v : Z) :
  i < Z.of_nat (length a) -> length (Js.set a i v) = length a.
Proof.
  intros Hi. unfold Js.set.
  destruct (Z.ltb_spec i 0) as [_|_]; [reflexivity|].
  destruct (Z.ltb_spec i (Z.of_nat (length a))) as [_|Hge]; [|lia].
  apply length_insert.
Qed.

(** X4.  The frame of a non-empty payload has 8 entries more than the
    payload, and the entry at index 3 of its header is the length of the
    frame less 4.  The empty payload is the exception: writing the length
    marker creates an entry, so its frame has 9 entries while index 3
    holds 4. *)
Theorem getBytes_length (payload : list Z) :
  ((0 < length payload)%nat ->
   length (getBytes payload) = (length payload + 8)%nat
   /\ getBytes payload !! 3%nat = Some (Z.of_nat (length (getBytes payload)) - 4))
  /\ length (getBytes []) = 9%nat
  /\ getBytes [] !! 3%nat = Some 4.
Proof.
  split; [|split; reflexivity].
  intros Hlen.
  assert (Hframe : length (getBytes payload) = (length payload + 8)%nat).
  { unfold getBytes. cbv zeta.
    rewrite !length_app, !length_Js_set; rewrite ?length_Js_set; cbn [length]; lia. }
  split; [exact Hframe|].
  rewrite Hframe. unfold getBytes. cbn [app lookup list_lookup].
  f_equal. lia.
Qed.

Lemma getBytes_length_witness :
  (0 < length dim_payload)%nat
  /\ length (getBytes dim_payload) = 14%nat
  /\ getBytes dim_payload !! 3%nat = Some 10.
Proof.
  assert (Hlen : (0 < length dim_payload)%nat) by (simpl; lia).
  split; [exact Hlen|].
  destruct (proj1 (getBytes_length dim_payload) Hlen) as [Hframe Hfield].
  split; [exact Hframe|]. rewrite Hfield, Hframe. reflexivity.
Defined.

(** X5.  The checksum closes its window: in the frame of a payload of
    bytes, the exclusive or of the rewritten payload up to and including the
    checksum entry is 0, so a receiver that folds those entries can tell a
    sound frame. *)
Theorem getBytes_checksum_closes (payload : list Z) :
  (3 <= length payload)%nat -> Z.of_nat (length payload) <= 2 ^ 31 ->
  Forall is_byte payload ->
  xor_all (take (length payload - 1) (payload_of (getBytes payload))) = 0.
Proof.
  intros Hlen Hmax Hbytes.
  rewrite (frame_byte_xor payload Hlen Hmax Hbytes).
  unfold frame_with. rewrite payload_of_frame.
  set (window := take (length payload - 2) (with_length payload)).
  assert (Hwin : length window = (length payload - 2)%nat).
  { unfold window. rewrite length_take, length_with_length. lia. }
  assert (Hsplit : with_length payload
                   = window ++ drop (length payload - 2) (with_length payload)).
  { unfold window. now rewrite take_drop. }
  destruct (lookup_lt_is_Some_2 (with_length payload) (length payload - 2)
              ltac:(rewrite length_with_length; lia)) as [old Hold].
  rewrite (drop_S _ _ _ Hold) in Hsplit.
  rewrite Hsplit.
  replace (length payload - 2)%nat with (length window + 0)%nat at 1 by lia.
  rewrite insert_app_r. cbn [insert list_insert].
  replace (length payload - 1)%nat with (length window + 1)%nat by lia.
  rewrite take_app_add. cbn [take]. rewrite take_0.
  rewrite xor_all_app. change (xor_all [xor_all window]) with (Z.lxor (xor_all window) 0).
  now rewrite Z.lxor_0_r, Z.lxor_nilpotent.
Qed.

Lemma getBytes_checksum_closes_witness :
  (3 <= length dim_payload)%nat
  /\ Z.of_nat (length dim_payload) <= 2 ^ 31
  /\ Forall is_byte dim_payload
  /\ xor_all [5; 49; 1; 80; 101] = 0.
Proof.
  assert (Hlen : (3 <= length dim_payload)%nat) by (simpl; lia).
  assert (Hmax : Z.of_nat (length dim_payload) <= 2 ^ 31) by (simpl; lia).
  assert (Hbytes : Forall is_byte dim_payload)
    by (repeat constructor; unfold is_byte; lia).
  split; [exact Hlen|]. split; [exact Hmax|]. split; [exact Hbytes|].
  exact (getBytes_checksum_closes dim_payload Hlen Hmax Hbytes).
Defined.

(** X6.  For a payload of 3 to 251 bytes every entry of the frame is a
    byte, so the buffer handed to the characteristic holds the frame as
    [getBytes] computed it, nothing being truncated. *)
Theorem getBytes_bytes (payload : list Z) :
  (3 <= length payload <= 251)%nat -> Forall is_byte payload ->
  Forall is_byte (getBytes payload)
  /\ Js.Buffer_from (getBytes payload) = getBytes payload.
Proof.
  intros [Hlen Hmax] Hbytes.
  assert (Hall : Forall is_byte (getBytes payload)).
  { rewrite (frame_byte_xor payload Hlen ltac:(lia) Hbytes). unfold frame_with.
    assert (Hwith : Forall is_byte (with_length payload)).
    { unfold with_length. apply Forall_insert; [exact Hbytes|]. unfold is_byte. lia. }
    apply Forall_app. split; [|apply Forall_app; split].
    - repeat constructor; unfold is_byte; lia.
    - apply Forall_insert; [exact Hwith|].
      apply xor_all_byte. now apply Forall_take.
    - repeat constructor; unfold is_byte; lia. }
  split; [exact Hall|].
  unfold Js.Buffer_from. induction Hall as [|z l Hz _ IH]; [reflexivity|].
  cbn [map]. rewrite IH. f_equal. unfold is_byte in Hz. now apply Z.mod_small.
Qed.

Lemma getBytes_bytes_witness :
  (3 <= length dim_payload <= 251)%nat
  /\ Forall is_byte dim_payload
  /\ Js.Buffer_from (getBytes dim_payload) = getBytes dim_payload.
Proof.
  assert (Hlen : (3 <= length dim_payload <= 251)%nat) by (simpl; lia).
  assert (Hbytes : Forall is_byte dim_payload)
    by (repeat constructor; unfold is_byte; lia).
  split; [exact Hlen|]. split; [exact Hbytes|].
  exact (proj2 (getBytes_bytes dim_payload Hlen Hbytes)).
Defined.

(** X7.  The checksum tells a changed byte: if one byte of the payload,
    other than the two placeholders and the last entry, is replaced by a
    different byte, the checksum entry of the frame changes. *)
Theorem getBytes_detects_change (payload : list Z) (i : nat) (old new : Z) :
  (3 <= length payload)%nat -> Z.of_nat (length payload) <= 2 ^ 31 ->
  Forall is_byte payload -> is_byte new ->
  (0 < i < length payload - 2)%nat -> payload !! i = Some old -> new <> old ->
  getBytes (<[i := new]> payload) !! (length payload + 4)%nat
  <> getBytes payload !! (length payload + 4)%nat.
Proof.
  intros Hlen Hmax Hbytes Hnew Hi Hold Hne.
  assert (Hbytes' : Forall is_byte (<[i := new]> payload))
    by (now apply Forall_insert).
  rewrite (frame_byte_xor (<[i := new]> payload))
    by (rewrite ?length_insert; assumption).
  rewrite (frame_byte_xor payload Hlen Hmax Hbytes).
  unfold frame_with. rewrite !length_insert.
  assert (Hat : forall (ck : Z) (body : list Z),
             length body = length payload ->
             ([254; 239; 10; Z.of_nat (length payload) + 4; 171; 170]
                ++ <[(length payload - 2)%nat := ck]> body ++ [13; 10])
               !! (length payload + 4)%nat = Some ck).
  { intros ck body Hbody.
    replace (length payload + 4)%nat with (6 + (length payload - 2))%nat by lia.
    change ([254; 239; 10; Z.of_nat (length payload) + 4; 171; 170] ++ ?l)
      with ([254; 239; 10; Z.of_nat (length payload) + 4; 171; 170] ++ l).
    rewrite (lookup_app_r [254; 239; 10; Z.of_nat (length payload) + 4; 171; 170])
      by (cbn [length]; lia).
    cbn [length]. replace (6 + (length payload - 2) - 6)%nat with (length payload - 2)%nat by lia.
    rewrite lookup_app_l by (rewrite length_insert; lia).
    apply list_lookup_insert_eq. lia. }
  rewrite !Hat by (rewrite ?length_with_length, ?length_insert; reflexivity).
  intros Heq. inversion Heq as [Hck]. clear Heq.
  assert (Hcomm : with_length (<[i := new]> payload) = <[i := new]> (with_length payload)).
  { unfold with_length. rewrite length_insert. apply list_insert_insert_ne. lia. }
  rewrite Hcomm in Hck. rewrite take_insert_lt in Hck by lia.
  assert (Hwin : take (length payload - 2) (with_length payload) !! i = Some old).
  { rewrite lookup_take_lt by lia. unfold with_length.
    rewrite list_lookup_insert_ne by lia. exact Hold. }
  rewrite (xor_all_insert _ i old new Hwin) in Hck.
  apply Hne. symmetry. apply Z.lxor_eq.
  set (folded := xor_all _) in Hck.
  transitivity (Z.lxor folded (Z.lxor folded (Z.lxor old new))).
  - now rewrite <- Z.lxor_assoc, Z.lxor_nilpotent, Z.lxor_0_l.
  - rewrite Hck. apply Z.lxor_nilpotent.
Qed.

Lemma getBytes_detects_change_witness :
  (3 <= length dim_payload)%nat
  /\ Z.of_nat (length dim_payload) <= 2 ^ 31
  /\ Forall is_byte dim_payload
  /\ is_byte 81
  /\ (0 < 3 < length dim_payload - 2)%nat
  /\ dim_payload !! 3%nat = Some 80
  /\ getBytes [0; 49; 1; 81; 0; 85] !! 10%nat <> getBytes dim_payload !! 10%nat.
Proof.
  assert (Hlen : (3 <= length dim_payload)%nat) by (simpl; lia).
  assert (Hmax : Z.of_nat (length dim_payload) <= 2 ^ 31) by (simpl; lia).
  assert (Hbytes : Forall is_byte dim_payload)
    by (repeat constructor; unfold is_byte; lia).
  assert (Hnew : is_byte 81) by (unfold is_byte; lia).
  assert (Hi : (0 < 3 < length dim_payload - 2)%nat) by (simpl; lia).
  assert (Hold : dim_payload !! 3%nat = Some 80) by reflexivity.
  split; [exact Hlen|]. split; [exact Hmax|]. split; [exact Hbytes|].
  split; [exact Hnew|]. split; [exact Hi|]. split; [exact Hold|].
  exact (getBytes_detects_change dim_payload 3 80 81 Hlen Hmax Hbytes Hnew Hi Hold
           ltac:(discriminate)).
Defined.

(** X8.  On payloads too short for the layout the array assignments of
    [getBytes] collide or miss.  With two entries the checksum, taken over
    no entry and so 0, lands on the length marker; with one entry the
    checksum goes to the property [-1] and is not in the frame; with none
    the length marker [-1] becomes the only entry. *)
Theorem getBytes_short (a b : Z) :
  getBytes [a; b] = [254; 239; 10; 6; 171; 170; 0; b; 13; 10]
  /\ getBytes [a] = [254; 239; 10; 5; 171; 170; 0; 13; 10]
  /\ getBytes [] = [254; 239; 10; 4; 171; 170; -1; 13; 10]
  /\ Js.Buffer_from (getBytes []) = [254; 239; 10; 4; 171; 170; 255; 13; 10].
Proof. repeat split. Qed.

(** ** More on the connection manager *)

(** X9.  With a peripheral attached, the promise of [connect] resolves
    exactly when the link comes up, discovery returns both the control and
    the notify characteristic, and the subscription is acknowledged.  It
    then leaves [connected] true and [lampControl] set, and has made, in
    this order, the connection, the discovery, the subscription and the two
    status requests, white first. *)
Theorem connect_resolves (w : World) (p : Peripheral) :
  peripheral (self w) = Some p ->
  (fst (connect w) = Resolved tt <->
   on_connect p (requests (rt w)) = Done
   /\ exists c nf,
        on_discover p (S (requests (rt w))) = Discovered (Some c) (Some nf)
        /\ emits_notify nf (S (S (requests (rt w)))) = true)
  /\ (fst (connect w) = Resolved tt ->
      connected (self (snd (connect w))) = true
      /\ is_Some (lampControl (self (snd (connect w))))
      /\ emitted w (snd (connect w))
           [CallConnect; PeripheralConnect; PeripheralDiscover; NotifySubscribe;
            ControlWrite whiteStatusCmd; ControlWrite colorStatusCmd]).
Proof.
  destruct w as [[] []]. cbn [self rt peripheral requests]. intros ->.
  unfold connect, requestState. unfold_async. cbn.
  repeat (branch; cbn);
    (split;
     [ split;
       [ intros Hres; try discriminate Hres; eauto 10
       | intros (Hlink & c' & nf' & Hdisc & Hnf); congruence ]
     | intros Hres; try discriminate Hres; repeat split; eauto ]).
Qed.

Lemma connect_resolves_witness :
  peripheral (self (update (set_peripheral (Some steady_lamp)) (constructor true)))
  = Some steady_lamp
  /\ fst (connect (update (set_peripheral (Some steady_lamp)) (constructor true)))
     = Resolved tt
  /\ connected (self (paired steady_lamp)) = true.
Proof.
  set (w := update (set_peripheral (Some steady_lamp)) (constructor true)).
  assert (Hp : peripheral (self w) = Some steady_lamp) by reflexivity.
  assert (Hres : fst (connect w) = Resolved tt).
  { apply (proj1 (connect_resolves w steady_lamp Hp)).
    split; [reflexivity|]. eexists. eexists. split; reflexivity. }
  split; [exact Hp|]. split; [exact Hres|].
  exact (proj1 (proj2 (connect_resolves w steady_lamp Hp) Hres)).
Defined.

(** X10.  How [connect] fails.  If the peripheral refuses the connection the
    promise is rejected with its error and the accessory is as before, only
    the attempt having been made.  If the connection is made and discovery
    then fails, the promise is rejected with that error while [connected]
    stays true; [lampControl] keeps what it held. *)
Theorem connect_rejections (w : World) (p : Peripheral) (e : Error) :
  peripheral (self w) = Some p ->
  (on_connect p (requests (rt w)) = Failed e ->
   fst (connect w) = Rejected e
   /\ self (snd (connect w)) = self w
   /\ emitted w (snd (connect w)) [CallConnect; PeripheralConnect])
  /\ (on_connect p (requests (rt w)) = Done ->
      on_discover p (S (requests (rt w))) = DiscoverFailed e ->
      fst (connect w) = Rejected e
      /\ connected (self (snd (connect w))) = true
      /\ lampControl (self (snd (connect w))) = lampControl (self w)
      /\ emitted w (snd (connect w))
           [CallConnect; PeripheralConnect; PeripheralDiscover]).
Proof.
  destruct w as [[] []]. cbn [self rt peripheral requests lampControl]. intros ->.
  unfold connect, requestState. unfold_async. cbn.
  split.
  - intros ->. cbn. repeat split.
  - intros Hlink Hdisc. rewrite Hlink. cbn. rewrite Hdisc. cbn. repeat split.
Qed.

Lemma connect_rejections_witness :
  peripheral (self (update (set_peripheral (Some absent_lamp)) (constructor true)))
  = Some absent_lamp
  /\ on_connect absent_lamp 0 = Failed (BleError 2)
  /\ fst (connect (update (set_peripheral (Some absent_lamp)) (constructor true)))
     = Rejected (BleError 2)
  /\ connected (self (paired absent_lamp)) = false.
Proof.
  set (w := update (set_peripheral (Some absent_lamp)) (constructor true)).
  assert (Hp : peripheral (self w) = Some absent_lamp) by reflexivity.
  assert (Hfail : on_connect absent_lamp (requests (rt w)) = Failed (BleError 2))
    by reflexivity.
  destruct (proj1 (connect_rejections w absent_lamp (BleError 2) Hp) Hfail)
    as (Hres & Hself & _).
  split; [exact Hp|]. split; [exact Hfail|]. split; [exact Hres|].
  unfold paired, setPeripheral. fold w. now rewrite Hself.
Defined.

(** X11.  If discovery returns without the control or without the notify
    characteristic, [connect] rejects with the missing-characteristics
    error after the connection and the discovery, without subscribing and
    without requesting the state; [connected] is left true and
    [lampControl] holds what the lookup gave, so a control characteristic
    held before is lost when the lookup finds none. *)
Theorem connect_missing_characteristics
    (w : World) (p : Peripheral) (control : option Characteristic)
    (notify : option Notifier) :
  peripheral (self w) = Some p ->
  on_connect p (requests (rt w)) = Done ->
  on_discover p (S (requests (rt w))) = Discovered control notify ->
  control = None \/ notify = None ->
  connect w
  = (Rejected MissingCharacteristics,
     update (set_lampControl control)
       (snd (request PeripheralDiscover
               (update (set_connected true)
                  (snd (request PeripheralConnect (emit CallConnect w)))))))
  /\ connected (self (snd (connect w))) = true
  /\ lampControl (self (snd (connect w))) = control
  /\ emitted w (snd (connect w)) [CallConnect; PeripheralConnect; PeripheralDiscover].
Proof.
  destruct w as [[] []]. cbn [self rt peripheral requests]. intros -> Hlink Hdisc Hmiss.
  unfold connect, requestState. unfold_async. cbn.
  rewrite Hlink. cbn. rewrite Hdisc. cbn.
  destruct Hmiss as [-> | ->]; [|destruct control]; cbn; repeat split.
Qed.

Lemma connect_missing_characteristics_witness :
  peripheral (self (update (set_peripheral (Some mute_lamp)) (constructor true)))
  = Some mute_lamp
  /\ on_connect mute_lamp 0 = Done
  /\ on_discover mute_lamp 1 = Discovered (Some steady_control) None
  /\ fst (connect (update (set_peripheral (Some mute_lamp)) (constructor true)))
     = Rejected MissingCharacteristics
  /\ connected (self (paired mute_lamp)) = true
  /\ lampControl (self (paired mute_lamp)) = Some steady_control.
Proof.
  set (w := update (set_peripheral (Some mute_lamp)) (constructor true)).
  assert (Hp : peripheral (self w) = Some mute_lamp) by reflexivity.
  assert (Hlink : on_connect mute_lamp (requests (rt w)) = Done) by reflexivity.
  assert (Hdisc : on_discover mute_lamp (S (requests (rt w)))
                  = Discovered (Some steady_control) None) by reflexivity.
  destruct (connect_missing_characteristics w mute_lamp _ _ Hp Hlink Hdisc
              (or_intror eq_refl)) as (Hrun & Hup & Hctl & _).
  split; [exact Hp|]. split; [exact Hlink|]. split; [exact Hdisc|].
  split; [now rewrite Hrun|]. split; [exact Hup|exact Hctl].
Defined.

(** X12.  [disconnect] is idempotent, and does nothing at all when no
    peripheral is attached or the accessory is not connected. *)
Theorem disconnect_idempotent (w : World) :
  disconnect (disconnect w) = disconnect w
  /\ (peripheral (self w) = None \/ connected (self w) = false -> disconnect w = w).
Proof.
  unfold disconnect. split.
  - destruct (peripheral (self w)) eqn:Hp; [|now rewrite Hp].
    destruct (connected (self w)) eqn:Hc; cbn.
    + now rewrite Hp.
    + now rewrite Hp, Hc.
  - intros [-> | Hc]; [reflexivity|].
    rewrite Hc. now destruct (peripheral (self w)).
Qed.

Lemma disconnect_idempotent_witness :
  (peripheral (self lapsed) = None \/ connected (self lapsed) = false)
  /\ disconnect lapsed = lapsed.
Proof.
  assert (Hdown : peripheral (self lapsed) = None \/ connected (self lapsed) = false)
    by (right; reflexivity).
  split; [exact Hdown|].
  exact (proj2 (disconnect_idempotent lapsed) Hdown).
Defined.

Lemma elapse_no_timer (w : World) (dt : Z) :
  timers (rt w) = [] ->
  self (elapse dt w) = self w
  /\ trace (rt (elapse dt w)) = trace (rt w)
  /\ timers (rt (elapse dt w)) = [].
Proof. intros Hts. unfold elapse. rewrite Hts. repeat split. Qed.

(** X13.  The idle timer is one-shot.  Once it has fired and disconnected
    the accessory, no further passage of time does anything: the accessory
    and its observations stay as the firing left them, one disconnection
    having been made. *)
Theorem idle_timer_fires_once (w : World) (d dt1 dt2 : Z) :
  armed w d -> connected (self w) = true -> is_Some (peripheral (self w)) ->
  d <= now (rt w) + dt1 ->
  self (elapse dt2 (elapse dt1 w)) = self (elapse dt1 w)
  /\ connected (self (elapse dt2 (elapse dt1 w))) = false
  /\ emitted w (elapse dt2 (elapse dt1 w)) [PeripheralDisconnect].
Proof.
  intros Harmed Hup Hp Hdue.
  destruct (elapse_fires w d dt1 Harmed Hup Hp Hdue) as (Hdown & Hts & Hev).
  destruct (elapse_no_timer (elapse dt1 w) dt2 Hts) as (Hself & Htrace & _).
  split; [exact Hself|]. split; [now rewrite Hself|].
  unfold emitted in *. now rewrite Htrace.
Qed.

Lemma idle_timer_fires_once_witness :
  armed (snd (send dim_payload (paired steady_lamp))) 5000
  /\ connected (self (snd (send dim_payload (paired steady_lamp)))) = true
  /\ is_Some (peripheral (self (snd (send dim_payload (paired steady_lamp)))))
  /\ emitted (snd (send dim_payload (paired steady_lamp)))
       (elapse 60000 (elapse 5000 (snd (send dim_payload (paired steady_lamp)))))
       [PeripheralDisconnect].
Proof.
  set (w := snd (send dim_payload (paired steady_lamp))).
  assert (Harmed : armed w 5000) by (exists 0%nat; split; reflexivity).
  assert (Hup : connected (self w) = true) by reflexivity.
  assert (Hp : is_Some (peripheral (self w))) by (eexists; reflexivity).
  split; [exact Harmed|]. split; [exact Hup|]. split; [exact Hp|].
  exact (proj2 (proj2 (idle_timer_fires_once w 5000 5000 60000 Harmed Hup Hp
                         ltac:(vm_compute; discriminate)))).
Defined.

(** X14.  A reconnection that fails at discovery leaves a link the next
    [send] trusts.  If [send] finds the accessory disconnected while it
    still holds a control characteristic from an earlier connection, and
    the connection is made but discovery fails, then [send] is rejected
    with the discovery error and leaves [connected] true with the old
    characteristic in place: the following [send] does not reconnect and
    writes its frame to that characteristic. *)
Theorem send_after_failed_discovery
    (w : World) (p : Peripheral) (c : Characteristic) (e : Error)
    (bytes bytes' : list Z) :
  peripheral (self w) = Some p -> lampControl (self w) = Some c ->
  connected (self w) = false ->
  on_connect p (requests (rt w)) = Done ->
  on_discover p (S (requests (rt w))) = DiscoverFailed e ->
  let w' := snd (send bytes w) in
  fst (send bytes w) = Rejected e
  /\ connected (self w') = true
  /\ lampControl (self w') = Some c
  /\ emitted w' (snd (send bytes' w'))
       [CallSend bytes'; ControlWrite (Js.Buffer_from (getBytes bytes'))].
Proof.
  intros Hp Hctl Hdown Hlink Hdisc w'.
  set (w0 := emit (CallSend bytes) w).
  destruct (proj2 (connect_rejections w0 p e Hp) Hlink Hdisc)
    as (Hres & Hup & Hkeep & _).
  assert (Hrun : send bytes w = (Rejected e, snd (connect w0))).
  { apply send_connect_rejected; [apply needs_connect_true; now left|].
    fold w0. destruct (connect w0) as [r w1]; cbn [fst snd] in *. now subst r. }
  assert (Hw' : w' = snd (connect w0)) by (unfold w'; now rewrite Hrun).
  split; [now rewrite Hrun|].
  split; [now rewrite Hw'|].
  assert (Hctl' : lampControl (self w') = Some c)
    by (rewrite Hw', Hkeep; exact Hctl).
  split; [exact Hctl'|].
  destruct (send_events bytes' w') as (rest & Hem & _ & Hconn & _).
  assert (Hneeds : needs_connect w' = false).
  { unfold needs_connect. rewrite Hctl', Hw', Hup. reflexivity. }
  rewrite Hneeds in Hconn. now subst rest.
Qed.

Lemma send_after_failed_discovery_witness :
  peripheral (self hazy) = Some hazy_lamp
  /\ lampControl (self hazy) = Some steady_control
  /\ connected (self hazy) = false
  /\ on_connect hazy_lamp (requests (rt hazy)) = Done
  /\ on_discover hazy_lamp (S (requests (rt hazy))) = DiscoverFailed (BleError 3)
  /\ fst (send dim_payload hazy) = Rejected (BleError 3)
  /\ connected (self (snd (send dim_payload hazy))) = true.
Proof.
  assert (Hp : peripheral (self hazy) = Some hazy_lamp) by reflexivity.
  assert (Hctl : lampControl (self hazy) = Some steady_control) by reflexivity.
  assert (Hdown : connected (self hazy) = false) by reflexivity.
  assert (Hlink : on_connect hazy_lamp (requests (rt hazy)) = Done) by reflexivity.
  assert (Hdisc : on_discover hazy_lamp (S (requests (rt hazy)))
                  = DiscoverFailed (BleError 3)) by reflexivity.
  destruct (send_after_failed_discovery hazy hazy_lamp steady_control (BleError 3)
              dim_payload dim_payload Hp Hctl Hdown Hlink Hdisc)
    as (Hres & Hup & _).
  split; [exact Hp|]. split; [exact Hctl|]. split; [exact Hdown|].
  split; [exact Hlink|]. split; [exact Hdisc|]. split; [exact Hres|exact Hup].
Defined.

(** X15.  Disconnect on idle, reconnect on demand.  When the idle timer of
    a connected accessory has come due and the lamp then answers every
    request, the next [send] resolves: the accessory was disconnected by
    the timer, and [send] connects again, discovers, subscribes, requests
    the state of both channels, re-arms the timer from the present time and
    writes its frame, in this order; it ends connected, holding the newly
    discovered control characteristic. *)
Theorem reconnect_after_idle
    (w : World) (p : Peripheral) (c : Characteristic) (nf : Notifier)
    (d dt : Z) (bytes : list Z) :
  armed w d -> connected (self w) = true -> peripheral (self w) = Some p ->
  d <= now (rt w) + dt ->
  on_connect p (requests (rt w)) = Done ->
  on_discover p (S (requests (rt w))) = Discovered (Some c) (Some nf) ->
  emits_notify nf (S (S (requests (rt w)))) = true ->
  on_write c (S (S (S (S (S (requests (rt w))))))) = Done ->
  let w' := snd (send bytes (elapse dt w)) in
  fst (send bytes (elapse dt w)) = Resolved tt
  /\ connected (self w') = true
  /\ lampControl (self w') = Some c
  /\ armed w' (now (rt w) + dt + connectionTimeout (self w))
  /\ emitted w w'
       [PeripheralDisconnect; CallSend bytes; CallConnect; PeripheralConnect;
        PeripheralDiscover; NotifySubscribe; ControlWrite whiteStatusCmd;
        ControlWrite colorStatusCmd;
        ControlWrite (Js.Buffer_from (getBytes bytes))].
Proof.
  destruct w as [[] []]. unfold armed.
  cbn [self rt peripheral requests connected now timers connectionTimeout
       connectionTimeoutToken].
  intros (token & -> & ->) -> -> Hdue Hlink Hdisc Hnf Hwrite.
  unfold elapse. cbn [rt now timers List.filter snd].
  destruct (Z.leb_spec d (now0 + dt)) as [_|Hlt]; [|lia].
  cbn [negb fold_right]. unfold disconnect. cbn.
  unfold send, connect, requestState, writeControl, resetConnectionTimeout.
  unfold_async. cbn.
  rewrite Hlink. cbn. rewrite Hdisc. cbn. rewrite Hnf. cbn. rewrite Hwrite. cbn.
  repeat split. eexists. split; reflexivity.
Qed.

Lemma reconnect_after_idle_witness :
  armed (snd (send dim_payload (paired steady_lamp))) 5000
  /\ fst (send dim_payload (elapse 7000 (snd (send dim_payload (paired steady_lamp)))))
     = Resolved tt
  /\ armed (snd (send dim_payload
                   (elapse 7000 (snd (send dim_payload (paired steady_lamp))))))
       12000.
Proof.
  set (w := snd (send dim_payload (paired steady_lamp))).
  assert (Harmed : armed w 5000) by (exists 0%nat; split; reflexivity).
  destruct (reconnect_after_idle w steady_lamp steady_control
              {| emits_notify := fun _ => true |} 5000 7000 dim_payload
              Harmed eq_refl eq_refl ltac:(vm_compute; discriminate)
              eq_refl eq_refl eq_refl eq_refl)
    as (Hres & _ & _ & Hre & _).
  split; [exact Harmed|]. split; [exact Hres|exact Hre].
Defined.

(** ** More on the lamp model *)

Section LampCommands.

Context `{ColorConvert}.

Implicit Types (w : World) (value : bool) (level : Z).

Lemma sent_payloads_none (events : list Event) :
  no_CallSend events -> sent_payloads events = [].
Proof.
  unfold no_CallSend. induction events as [|e events IH]; [reflexivity|].
  cbn [forallb]. intros Hall. apply andb_prop in Hall as [He Hrest].
  destruct e; try discriminate He; cbn [sent_payloads]; now apply IH.
Qed.

Lemma sent_payloads_app (events1 events2 : list Event) :
  sent_payloads (events1 ++ events2) = sent_payloads events1 ++ sent_payloads events2.
Proof.
  induction events1 as [|e events1 IH]; [reflexivity|].
  destruct e; cbn [app sent_payloads]; rewrite IH; reflexivity.
Qed.

(** One [send], seen from the lamp model. *)
Lemma send_once bytes w :
  exists events,
    emitted w (snd (send bytes w)) events
    /\ sent_payloads events = [bytes]
    /\ same_lamp w (snd (send bytes w)).
Proof.
  destruct (send_events bytes w) as (rest & Hem & Hns & _).
  exists (CallSend bytes :: rest). split; [exact Hem|].
  split; [|apply send_same_lamp].
  cbn [sent_payloads]. now rewrite (sent_payloads_none rest Hns).
Qed.

(** [setRgb], case by case. *)
Lemma setRgb_cases w :
  let w' := snd (setRgb w) in
  hue (self w') = hue (self w)
  /\ saturation (self w') = saturation (self w)
  /\ whiteBrightness (self w') = whiteBrightness (self w)
  /\ colorBrightness (self w') = colorBrightness (self w)
  /\ whichLampToControl (self w') = whichLampToControl (self w)
  /\ exists events,
       emitted w w' events
       /\ ((colorOn (self w) = true
            /\ sent_payloads events = [rgb_payload w]
            /\ colorOn (self w') = true /\ whiteOn (self w') = false)
           \/ (colorOn (self w) = false
               /\ fst (send [4; 55; 2; 0; 85] w) = Resolved tt
               /\ sent_payloads events = [[4; 55; 2; 0; 85]; rgb_payload w]
               /\ colorOn (self w') = true /\ whiteOn (self w') = false)
           \/ (colorOn (self w) = false
               /\ fst (send [4; 55; 2; 0; 85] w) <> Resolved tt
               /\ fst (setRgb w) = fst (send [4; 55; 2; 0; 85] w)
               /\ sent_payloads events = [[4; 55; 2; 0; 85]]
               /\ colorOn (self w') = false /\ whiteOn (self w') = whiteOn (self w))).
Proof.
  unfold setRgb, rgb_payload. unfold_async. cbn.
  destruct (colorOn (self w)) eqn:Hc; cbn.
  - destruct (hsl_rgb _ _ _) as [[r g] b].
    match goal with
    | |- context [send ?bytes ?w0] =>
        destruct (send_once bytes w0) as (events & Hem & Hsent & Hsame)
    end.
    destruct Hsame as (Hwo & Hco & Hwb & Hcb & Hh & Hs & Hwh).
    repeat (split; [assumption|]).
    exists events. split; [exact Hem|]. left. repeat split; assumption.
  - destruct (send_once [4; 55; 2; 0; 85] w) as (events1 & Hem1 & Hsent1 & Hsame1).
    destruct Hsame1 as (Hwo1 & Hco1 & Hwb1 & Hcb1 & Hh1 & Hs1 & Hwh1).
    destruct (send [4; 55; 2; 0; 85] w) as [[[]|e|] w1]; cbn [fst snd] in *.
    + cbn. rewrite Hh1, Hs1. destruct (hsl_rgb _ _ _) as [[r g] b].
      match goal with
      | |- context [send ?bytes ?w0] =>
          destruct (send_once bytes w0) as (events2 & Hem2 & Hsent2 & Hsame2)
      end.
      destruct Hsame2 as (Hwo2 & Hco2 & Hwb2 & Hcb2 & Hh2 & Hs2 & Hwh2).
      cbn in Hwo2, Hco2, Hwb2, Hcb2, Hh2, Hs2, Hwh2.
      split; [congruence|]. split; [congruence|]. split; [congruence|].
      split; [congruence|]. split; [congruence|].
      exists (events1 ++ events2). split.
      * exact (emitted_trans _ _ _ _ _ Hem1 Hem2).
      * right. left. rewrite sent_payloads_app, Hsent1, Hsent2.
        repeat split; assumption.
    + repeat (split; [assumption|]).
      exists events1. split; [exact Hem1|]. right. right.
      rewrite Hc in Hco1. repeat split; try assumption; discriminate.
    + repeat (split; [assumption|]).
      exists events1. split; [exact Hem1|]. right. right.
      rewrite Hc in Hco1. repeat split; try assumption; discriminate.
Qed.

End LampCommands.

(** X16.  HomeKit reads back what it wrote, whatever becomes of the
    Bluetooth command: after [setBrightness(v)] [getBrightness()] is [v],
    after [setHue(v)] [getHue()] is [v], after [setSaturation(v)]
    [getSaturation()] is [v], and after [setLampOn(value)] [isLampOn()] is
    [value]. *)
Theorem set_then_get `{ColorConvert} (w : World) (v : Z) (value : bool) :
  getBrightness (self (snd (setBrightness v w))) = v
  /\ getHue (self (snd (setHue v w))) = v
  /\ getSaturation (self (snd (setSaturation v w))) = v
  /\ isLampOn (self (snd (setLampOn value w))) = value.
Proof.
  split; [|split; [|split]].
  - rewrite setBrightness_send. unfold getBrightness.
    match goal with
    | |- context [send ?bytes ?w0] =>
        pose proof (send_same_lamp bytes w0) as (_ & Hco & Hwb & Hcb & _)
    end.
    rewrite Hco, Hwb, Hcb.
    destruct (colorOn (self w)) eqn:Hc; cbn; rewrite ?Hc; reflexivity.
  - unfold getHue, setHue. unfold_async. cbn.
    exact (proj1 (setRgb_cases (update (set_hue v) w))).
  - unfold getSaturation, setSaturation. unfold_async. cbn.
    exact (proj1 (proj2 (setRgb_cases (update (set_saturation v) w)))).
  - unfold isLampOn. destruct (value && colorOn (self w)) eqn:Hgo.
    + apply andb_prop in Hgo as [-> Hc]. rewrite (setLampOn_noop w Hc).
      cbn. rewrite Hc. apply orb_true_r.
    + rewrite (setLampOn_send value w Hgo).
      match goal with
      | |- context [send ?bytes ?w0] =>
          pose proof (send_same_lamp bytes w0) as (Hwo & Hco & _)
      end.
      rewrite Hwo, Hco. cbn. apply orb_false_r.
Qed.

(** X17.  [setBrightness(v)] hands [send] the one payload
    [0, 49, channel, v, 0, 85], the channel being 2 and the brightness
    stored that of the colour channel when the colour channel is on, 1 and
    the white channel's otherwise.  It switches nothing on or off and leaves
    the other channel's brightness alone. *)
Theorem setBrightness_command (w : World) (v : Z) :
  let w' := snd (setBrightness v w) in
  let channel := if colorOn (self w) then 2 else 1 in
  (exists events,
      emitted w w' events /\ sent_payloads events = [[0; 49; channel; v; 0; 85]])
  /\ whichLampToControl (self w') = channel
  /\ whiteOn (self w') = whiteOn (self w)
  /\ colorOn (self w') = colorOn (self w)
  /\ colorBrightness (self w')
     = (if colorOn (self w) then v else colorBrightness (self w))
  /\ whiteBrightness (self w')
     = (if colorOn (self w) then whiteBrightness (self w) else v).
Proof.
  cbv zeta. rewrite setBrightness_send.
  match goal with
  | |- context [send ?bytes ?w0] =>
      destruct (send_once bytes w0)
        as (events & Hem & Hsent & Hwo & Hco & Hwb & Hcb & _ & _ & Hwh)
  end.
  rewrite Hwo, Hco, Hwb, Hcb, Hwh.
  split.
  - exists events. split; [|exact Hsent].
    unfold emitted in *. rewrite Hem. now destruct (colorOn (self w)).
  - destruct (colorOn (self w)) eqn:Hc; cbn; rewrite ?Hc; repeat split.
Qed.

(** X18.  [setRgb], reached through [setHue] and [setSaturation], sends
    the colour command [0, 50, r, g, b, 0, 85], with [r, g, b] converted
    from the stored hue and saturation at lightness 50, and nothing else
    when the colour channel is on.  When it is off it first sends the
    enable command [4, 55, 2, 0, 85]; only if that resolves does it mark
    the colour channel on, the white one off, and send the colour command.
    If the enable command does not resolve, [setRgb] ends as that command
    did, no colour command is sent and both channels stay as they were.
    Hue, saturation, both brightnesses and [whichLampToControl] are never
    changed by [setRgb]. *)
Theorem setRgb_commands `{ColorConvert} (w : World) :
  let w' := snd (setRgb w) in
  hue (self w') = hue (self w)
  /\ saturation (self w') = saturation (self w)
  /\ whiteBrightness (self w') = whiteBrightness (self w)
  /\ colorBrightness (self w') = colorBrightness (self w)
  /\ whichLampToControl (self w') = whichLampToControl (self w)
  /\ exists events,
       emitted w w' events
       /\ ((colorOn (self w) = true
            /\ sent_payloads events = [rgb_payload w]
            /\ colorOn (self w') = true /\ whiteOn (self w') = false)
           \/ (colorOn (self w) = false
               /\ fst (send [4; 55; 2; 0; 85] w) = Resolved tt
               /\ sent_payloads events = [[4; 55; 2; 0; 85]; rgb_payload w]
               /\ colorOn (self w') = true /\ whiteOn (self w') = false)
           \/ (colorOn (self w) = false
               /\ fst (send [4; 55; 2; 0; 85] w) <> Resolved tt
               /\ fst (setRgb w) = fst (send [4; 55; 2; 0; 85] w)
               /\ sent_payloads events = [[4; 55; 2; 0; 85]]
               /\ colorOn (self w') = false /\ whiteOn (self w') = whiteOn (self w))).
Proof. exact (setRgb_cases w). Qed.

Example setHue_green :
  sent_payloads (rev (trace (rt (snd (setHue 120 (update (set_saturation 100)
                                                   (paired steady_lamp)))))))
  = [[4; 55; 2; 0; 85]; [0; 50; 0; 255; 0; 0; 85]].
Proof. vm_compute. reflexivity. Qed.

(** ** More on notifications *)

Section Notified.

Context `{ColorConvert}.

Implicit Types (data : list Z) (w : World).

Lemma handleNotification_decoded data w :
  sufficient data ->
  handleNotification data w
  = Some (resetConnectionTimeout (updateHomeKitState (decoded data w))).
Proof.
  unfold sufficient, decoded. intros Hlen.
  destruct (bool_decide (data !! 8%nat = Some 2)) eqn:Hd.
  - apply bool_decide_eq_true_1 in Hd.
    exact (handleNotification_color data w Hd Hlen).
  - apply bool_decide_eq_false_1 in Hd.
    exact (handleNotification_white data w Hd Hlen).
Qed.

Lemma decoded_frame data w :
  trace (rt (decoded data w)) = trace (rt w)
  /\ lightService (self (decoded data w)) = lightService (self w).
Proof.
  unfold decoded. destruct (bool_decide _); [|now split].
  now destruct (rgb_hsl _ _ _) as [[h s] l].
Qed.

Lemma same_lamp_sym w w' : same_lamp w w' -> same_lamp w' w.
Proof. unfold same_lamp. intuition congruence. Qed.

(** Decoding looks at the frame only, for the fields it sets. *)
Lemma decoded_same_lamp data w1 w2 :
  same_lamp w1 w2 -> same_lamp (decoded data w1) (decoded data w2).
Proof.
  unfold decoded. intros (Hwo & Hco & Hwb & Hcb & Hh & Hs & Hwh).
  destruct (bool_decide _).
  - destruct (rgb_hsl _ _ _) as [[h s] l]. repeat split; assumption.
  - repeat split; assumption.
Qed.

Lemma decoded_twice data w :
  same_lamp (decoded data w) (decoded data (decoded data w)).
Proof.
  unfold decoded. destruct (bool_decide _).
  - destruct (rgb_hsl _ _ _) as [[h s] l]. repeat split.
  - repeat split.
Qed.

Lemma decoded_commute white color w :
  white !! 8%nat <> Some 2 -> color !! 8%nat = Some 2 ->
  same_lamp (decoded color (decoded white w)) (decoded white (decoded color w)).
Proof.
  intros Hw Hc. unfold decoded.
  rewrite (bool_decide_eq_false_2 _ Hw), (bool_decide_eq_true_2 _ Hc).
  destruct (rgb_hsl _ _ _) as [[h s] l]. repeat split.
Qed.

End Notified.

(** X19.  What a notification reports.  After decoding a frame,
    [handleNotification] pushes to HomeKit, in this order, On as
    [isLampOn()], Brightness, Hue as [getHue()] and Saturation as
    [getSaturation()] of the new state, and nothing else; when exactly one
    channel is on the brightness pushed is [getBrightness()].  An accessory
    without a Lightbulb service is updated all the same and reports
    nothing. *)
Theorem notification_report `{ColorConvert} (data : list Z) (w : World) :
  sufficient data ->
  exists w',
    handleNotification data w = Some w'
    /\ (lightService (self w) = true ->
        emitted w w'
          [UpdateOn (isLampOn (self w'));
           UpdateBrightness (if whiteOn (self w') then whiteBrightness (self w')
                             else colorBrightness (self w'));
           UpdateHue (getHue (self w'));
           UpdateSaturation (getSaturation (self w'))]
        /\ (xorb (whiteOn (self w')) (colorOn (self w')) = true ->
            pushed_brightness (trace (rt w')) = Some (getBrightness (self w'))))
    /\ (lightService (self w) = false -> emitted w w' [] /\ same_lamp (decoded data w) w').
Proof.
  intros Hlen. rewrite (handleNotification_decoded data w Hlen).
  eexists. split; [reflexivity|].
  destruct (decoded_frame data w) as (Htrace & Hservice).
  pose proof (notify_tail_same_lamp (decoded data w))
    as (Hwo & Hco & Hwb & Hcb & Hh & Hs & _).
  set (w0 := decoded data w) in *.
  unfold emitted, isLampOn, getHue, getSaturation, getBrightness.
  rewrite reset_trace, Hwo, Hco, Hwb, Hcb, Hh, Hs.
  unfold updateHomeKitState. rewrite Hservice.
  split; intros ->.
  - cbn. rewrite Htrace. split; [reflexivity|].
    now destruct (whiteOn (self w0)), (colorOn (self w0)).
  - rewrite Htrace. split; [reflexivity|].
    apply (reset_same_lamp w0).
Qed.

Lemma notification_report_witness :
  sufficient color_on_red
  /\ exists w',
       handleNotification color_on_red (paired steady_lamp) = Some w'
       /\ emitted (paired steady_lamp) w'
            [UpdateOn true; UpdateBrightness 70; UpdateHue 0; UpdateSaturation 100]
       /\ pushed_brightness (trace (rt w')) = Some (getBrightness (self w')).
Proof.
  assert (Hlen : sufficient color_on_red) by (vm_compute; lia).
  split; [exact Hlen|].
  destruct (notification_report color_on_red (paired steady_lamp) Hlen)
    as (w' & Hrun & Hon & _).
  exists w'. split; [exact Hrun|].
  destruct (Hon eq_refl) as (Hem & Hone).
  assert (Hw' : w' = resetConnectionTimeout
                       (updateHomeKitState (decoded color_on_red (paired steady_lamp)))).
  { rewrite (handleNotification_decoded _ _ Hlen) in Hrun. now inversion Hrun. }
  split.
  - unfold emitted in *. rewrite Hem. rewrite Hw'. vm_compute. reflexivity.
  - apply Hone. rewrite Hw'. vm_compute. reflexivity.
Defined.

(** X20.  Decoding is idempotent and the two channels' frames commute, as
    far as the lamp model goes: handling the same frame a second time leaves
    every field of the model as the first time did, and a white-channel
    frame and a colour-channel frame give the same model in either order. *)
Theorem notifications_idempotent_commute `{ColorConvert}
    (white color : list Z) (w : World) :
  sufficient white -> sufficient color ->
  white !! 8%nat <> Some 2 -> color !! 8%nat = Some 2 ->
  (forall data, sufficient data ->
     exists w1 w2,
       handleNotification data w = Some w1
       /\ handleNotification data w1 = Some w2
       /\ same_lamp w1 w2)
  /\ exists wa wab wb wba,
       handleNotification white w = Some wa
       /\ handleNotification color wa = Some wab
       /\ handleNotification color w = Some wb
       /\ handleNotification white wb = Some wba
       /\ same_lamp wab wba.
Proof.
  intros Hw Hc Hwd Hcd. split.
  - intros data Hlen.
    rewrite (handleNotification_decoded data w Hlen).
    eexists. eexists. split; [reflexivity|].
    rewrite (handleNotification_decoded data _ Hlen). split; [reflexivity|].
    set (w1 := decoded data w).
    pose proof (notify_tail_same_lamp w1) as Htail1.
    eapply same_lamp_trans; [apply same_lamp_sym; exact Htail1|].
    eapply same_lamp_trans; [|apply notify_tail_same_lamp].
    eapply same_lamp_trans; [apply decoded_twice|].
    apply decoded_same_lamp. exact Htail1.
  - rewrite (handleNotification_decoded white w Hw).
    rewrite (handleNotification_decoded color w Hc).
    eexists. eexists. eexists. eexists.
    split; [reflexivity|].
    rewrite (handleNotification_decoded color _ Hc). split; [reflexivity|].
    split; [reflexivity|].
    rewrite (handleNotification_decoded white _ Hw). split; [reflexivity|].
    eapply same_lamp_trans; [apply same_lamp_sym; apply notify_tail_same_lamp|].
    eapply same_lamp_trans; [|apply notify_tail_same_lamp].
    eapply same_lamp_trans;
      [apply decoded_same_lamp; apply same_lamp_sym; apply notify_tail_same_lamp|].
    eapply same_lamp_trans; [apply decoded_commute; assumption|].
    apply decoded_same_lamp. apply notify_tail_same_lamp.
Qed.

Lemma notifications_idempotent_commute_witness :
  sufficient white_off_30 /\ sufficient color_on_red
  /\ white_off_30 !! 8%nat <> Some 2 /\ color_on_red !! 8%nat = Some 2
  /\ exists wa wab wb wba,
       handleNotification white_off_30 (paired steady_lamp) = Some wa
       /\ handleNotification color_on_red wa = Some wab
       /\ handleNotification color_on_red (paired steady_lamp) = Some wb
       /\ handleNotification white_off_30 wb = Some wba
       /\ same_lamp wab wba.
Proof.
  assert (Hw : sufficient white_off_30) by (vm_compute; lia).
  assert (Hc : sufficient color_on_red) by (vm_compute; lia).
  assert (Hwd : white_off_30 !! 8%nat <> Some 2) by discriminate.
  assert (Hcd : color_on_red !! 8%nat = Some 2) by reflexivity.
  split; [exact Hw|]. split; [exact Hc|]. split; [exact Hwd|]. split; [exact Hcd|].
  exact (proj2 (notifications_idempotent_commute white_off_30 color_on_red
                  (paired steady_lamp) Hw Hc Hwd Hcd)).
Defined.

(** X21.  Notifications do not keep the channels exclusive.  A white-channel
    frame that reports the channel on, arriving while the colour channel is
    on, leaves both on; [getBrightness()] then answers with the colour
    channel's brightness while the brightness pushed to HomeKit is the
    white channel's, the one the frame carried. *)
Theorem notification_both_on `{ColorConvert} (data : list Z) (w : World) :
  sufficient data -> data !! 8%nat <> Some 2 -> byte_at data 9 = 1 ->
  colorOn (self w) = true ->
  exists w',
    handleNotification data w = Some w'
    /\ whiteOn (self w') = true /\ colorOn (self w') = true
    /\ ~ exclusive w'
    /\ getBrightness (self w') = colorBrightness (self w)
    /\ (lightService (self w) = true ->
        pushed_brightness (trace (rt w')) = Some (byte_at data 10)).
Proof.
  intros Hlen Hd Hon Hc.
  rewrite (handleNotification_decoded data w Hlen).
  eexists. split; [reflexivity|].
  pose proof (notify_tail_same_lamp (decoded data w))
    as (Hwo & Hco & _ & Hcb & _).
  unfold exclusive, getBrightness. rewrite Hwo, Hco, Hcb, reset_trace.
  unfold updateHomeKitState, decoded.
  rewrite (bool_decide_eq_false_2 _ Hd), Hon. cbn. rewrite Hc.
  repeat split; try discriminate.
  intros ->. reflexivity.
Qed.

Lemma notification_both_on_witness :
  sufficient white_on_60 /\ white_on_60 !! 8%nat <> Some 2
  /\ byte_at white_on_60 9 = 1
  /\ colorOn (self (snd (setHue 120 (paired steady_lamp)))) = true
  /\ exists w',
       handleNotification white_on_60 (snd (setHue 120 (paired steady_lamp))) = Some w'
       /\ whiteOn (self w') = true /\ colorOn (self w') = true.
Proof.
  assert (Hlen : sufficient white_on_60) by (vm_compute; lia).
  assert (Hd : white_on_60 !! 8%nat <> Some 2) by discriminate.
  assert (Hon : byte_at white_on_60 9 = 1) by reflexivity.
  assert (Hc : colorOn (self (snd (setHue 120 (paired steady_lamp)))) = true)
    by (vm_compute; reflexivity).
  split; [exact Hlen|]. split; [exact Hd|]. split; [exact Hon|]. split; [exact Hc|].
  destruct (notification_both_on white_on_60 _ Hlen Hd Hon Hc)
    as (w' & Hrun & Hwo & Hco & _).
  exists w'. split; [exact Hrun|]. split; [exact Hwo|exact Hco].
Defined.

(** ** The platform *)

Lemma key_kept (m : gmap string World) (k k' : string) (v : World) :
  is_Some (m !! k') -> is_Some (<[k := v]> m !! k').
Proof.
  intros Hkey. apply lookup_insert_is_Some.
  destruct (decide (k = k')); [left|right]; auto.
Qed.

Section Platform.

Context `{UuidGen}.

Implicit Types (pl : BeurerPlatform) (d : Device) (w : World).

Lemma connect_keeps_identity w :
  peripheral (self (snd (connect w))) = peripheral (self w)
  /\ lightService (self (snd (connect w))) = lightService (self w).
Proof.
  destruct w as [[] []]. unfold connect, requestState. unfold_async. cbn.
  repeat (branch; cbn); repeat split.
Qed.

(** [setPeripheral] seen from outside the light. *)
Lemma setPeripheral_link (p : Peripheral) w :
  peripheral (self (setPeripheral p w)) = Some p
  /\ lightService (self (setPeripheral p w)) = lightService (self w)
  /\ same_lamp w (setPeripheral p w)
  /\ exists rest, emitted w (setPeripheral p w) (CallConnect :: rest)
                  /\ no_CallConnect rest.
Proof.
  unfold setPeripheral. set (w0 := update (set_peripheral (Some p)) w).
  destruct (connect_keeps_identity w0) as (Hp & Hls).
  destruct (connect_events w0) as (rest & Hem & Hnc & _).
  split; [exact Hp|]. split; [exact Hls|].
  split; [exact (proj1 (connect_frame w0))|].
  exists rest. split; [exact Hem|exact Hnc].
Qed.

Lemma registry_ok_step (c : PlatformCall) pl :
  registry_ok pl -> registry_ok (platform_step c pl).
Proof.
  intros [Hnodup Hall]. destruct c as [accessory|state|d]; cbn [platform_step].
  - split; [exact Hnodup|]. cbn [configureAccessory registered accessories].
    eapply Forall_impl; [exact Hall|]. intros a [Hkey Hbulb]. split; [|exact Hbulb].
    now apply key_kept.
  - unfold onStateChange. now destruct (String.eqb state "poweredOn").
  - unfold handleDiscoveredPeripheral.
    destruct (accessories pl !! generate (device_uuid d)) as [light|] eqn:Hlook;
      cbn [registered accessories].
    + split; [exact Hnodup|].
      eapply Forall_impl; [exact Hall|]. intros a [Hkey Hbulb]. split; [|exact Hbulb].
      now apply key_kept.
    + split.
      * cbn [map UUID]. constructor; [|exact Hnodup].
        intros Hin. apply list_elem_of_In in Hin. apply in_map_iff in Hin as (a & Ha & Hin).
        rewrite Forall_forall in Hall.
        apply list_elem_of_In in Hin.
        destruct (Hall a Hin) as [[light Hkey] _].
        change (UUID a = generate (device_uuid d)) in Ha.
        rewrite Ha, Hlook in Hkey. discriminate.
      * constructor.
        -- split; [|reflexivity]. apply lookup_insert_is_Some. left. reflexivity.
        -- eapply Forall_impl; [exact Hall|]. intros a [Hkey Hbulb].
           split; [|exact Hbulb]. now apply key_kept.
Qed.

End Platform.

(** X22.  A discovered peripheral whose generated UUID the platform already
    holds is linked to that accessory: scanning is stopped, nothing is
    registered, the map keeps its keys and every other light, and the light
    found gets the peripheral attached and enters [connect] once, whether
    or not it was connected, its lamp model and Lightbulb service
    unchanged. *)
Theorem discovered_known_is_linked `{UuidGen}
    (d : Device) (pl : BeurerPlatform) (light : World) :
  accessories pl !! generate (device_uuid d) = Some light ->
  let pl' := handleDiscoveredPeripheral d pl in
  scanning pl' = false
  /\ registered pl' = registered pl
  /\ dom (accessories pl') = dom (accessories pl)
  /\ (forall uuid, uuid <> generate (device_uuid d) ->
                   accessories pl' !! uuid = accessories pl !! uuid)
  /\ exists light',
       accessories pl' !! generate (device_uuid d) = Some light'
       /\ peripheral (self light') = Some (device_link d)
       /\ lightService (self light') = lightService (self light)
       /\ same_lamp light light'
       /\ exists rest, emitted light light' (CallConnect :: rest)
                       /\ no_CallConnect rest.
Proof.
  intros Hlook pl'. subst pl'. unfold handleDiscoveredPeripheral. rewrite Hlook.
  cbn [scanning registered accessories].
  split; [reflexivity|]. split; [reflexivity|].
  split; [apply dom_insert_lookup_L; eauto|].
  split; [intros uuid Hne; now rewrite lookup_insert_ne|].
  eexists. split; [apply lookup_insert_eq|].
  apply setPeripheral_link.
Qed.

Lemma discovered_known_is_linked_witness :
  accessories (handleDiscoveredPeripheral sample_device new_platform)
    !! generate (device_uuid sample_device)
  = Some (paired steady_lamp)
  /\ registered (handleDiscoveredPeripheral sample_device
                   (handleDiscoveredPeripheral sample_device new_platform))
     = registered (handleDiscoveredPeripheral sample_device new_platform).
Proof.
  set (pl := handleDiscoveredPeripheral sample_device new_platform).
  assert (Hlook : accessories pl !! generate (device_uuid sample_device)
                  = Some (paired steady_lamp)) by (vm_compute; reflexivity).
  split; [exact Hlook|].
  exact (proj1 (proj2 (discovered_known_is_linked sample_device pl _ Hlook))).
Defined.

(** X23.  A discovered peripheral with an unknown UUID becomes a new
    accessory: scanning is stopped and exactly one accessory is registered,
    under the generated UUID, named after the advertised local name or
    "SAD Lamp" when that is missing or empty, with manufacturer Beurer,
    model TL100, the peripheral's UUID as serial number and context, and a
    Lightbulb service.  The map gains, under that UUID, a light with the
    constructor's lamp model, the peripheral attached and [connect]
    entered once; every other light is untouched. *)
Theorem discovered_unknown_is_registered `{UuidGen} (d : Device) (pl : BeurerPlatform) :
  accessories pl !! generate (device_uuid d) = None ->
  let pl' := handleDiscoveredPeripheral d pl in
  scanning pl' = false
  /\ registered pl'
     = {| displayName := or_else (localName d) "SAD Lamp";
          UUID := generate (device_uuid d);
          peripheralUuid := Some (device_uuid d);
          manufacturer := Some "Beurer"%string;
          model := Some "TL100"%string;
          serialNumber := Some (device_uuid d);
          lightbulb := true |} :: registered pl
  /\ (localName d = None \/ localName d = Some ""%string ->
      or_else (localName d) "SAD Lamp" = "SAD Lamp"%string)
  /\ (forall uuid, uuid <> generate (device_uuid d) ->
                   accessories pl' !! uuid = accessories pl !! uuid)
  /\ exists light,
       accessories pl' !! generate (device_uuid d) = Some light
       /\ peripheral (self light) = Some (device_link d)
       /\ lightService (self light) = true
       /\ same_lamp (constructor true) light
       /\ exists rest, emitted (constructor true) light (CallConnect :: rest)
                       /\ no_CallConnect rest.
Proof.
  intros Hlook pl'. subst pl'. unfold handleDiscoveredPeripheral. rewrite Hlook.
  cbn [scanning registered accessories].
  split; [reflexivity|]. split; [reflexivity|].
  split; [intros [-> | ->]; reflexivity|].
  split; [intros uuid Hne; now rewrite lookup_insert_ne|].
  eexists. split; [apply lookup_insert_eq|].
  apply (setPeripheral_link (device_link d) (constructor true)).
Qed.

Lemma discovered_unknown_is_registered_witness :
  accessories new_platform !! generate (device_uuid nameless_device) = None
  /\ map displayName (registered (handleDiscoveredPeripheral nameless_device new_platform))
     = ["SAD Lamp"%string]
  /\ map UUID (registered (handleDiscoveredPeripheral nameless_device new_platform))
     = ["acc-decaf"%string].
Proof.
  assert (Hlook : accessories new_platform !! generate (device_uuid nameless_device) = None)
    by reflexivity.
  split; [exact Hlook|].
  destruct (discovered_unknown_is_registered nameless_device new_platform Hlook)
    as (_ & Hreg & _).
  rewrite Hreg. split; reflexivity.
Defined.

(** X24.  The platform never registers a UUID twice.  From the newly
    constructed platform, after any sequence of restored accessories,
    Bluetooth state changes and discoveries, the accessories registered
    have pairwise different UUIDs, each is a key of the map, and each has
    a Lightbulb service; and an accessory restored from the cache is not
    registered when its peripheral is discovered. *)
Theorem platform_registers_once `{UuidGen} :
  (forall (calls : list PlatformCall) (pl : BeurerPlatform),
      registry_ok pl -> registry_ok (platform_run calls pl))
  /\ registry_ok new_platform
  /\ (forall (accessory : Accessory) (d : Device) (pl : BeurerPlatform),
         UUID accessory = generate (device_uuid d) ->
         registered (handleDiscoveredPeripheral d (configureAccessory accessory pl))
         = registered pl).
Proof.
  split; [|split].
  - unfold platform_run. induction calls as [|c calls IH]; intros pl Hok; [exact Hok|].
    cbn [fold_left]. apply IH. now apply registry_ok_step.
  - split; [constructor|constructor].
  - intros accessory d pl Huuid. unfold handleDiscoveredPeripheral.
    cbn [configureAccessory accessories]. rewrite Huuid, lookup_insert_eq.
    reflexivity.
Qed.

Lemma platform_registers_once_witness :
  registry_ok new_platform
  /\ registry_ok
       (platform_run
          [StateChange "poweredOn"; Discover sample_device; Discover nameless_device;
           StateChange "poweredOn"; Discover sample_device]
          new_platform)
  /\ map UUID
       (registered
          (platform_run
             [StateChange "poweredOn"; Discover sample_device; Discover nameless_device;
              StateChange "poweredOn"; Discover sample_device]
             new_platform))
     = ["acc-decaf"%string; "acc-c0ffee"%string].
Proof.
  pose proof (@platform_registers_once sample_uuid) as (Hrun & Hnew & _).
  split; [exact Hnew|]. split; [exact (Hrun _ new_platform Hnew)|].
  vm_compute. reflexivity.
Defined.

Lemma setRgb_commands_witness :
  exists events,
    emitted (update (set_saturation 100) (update (set_hue 120) (paired steady_lamp)))
      (snd (setRgb (update (set_saturation 100) (update (set_hue 120) (paired steady_lamp)))))
      events
    /\ sent_payloads events = [[4; 55; 2; 0; 85]; [0; 50; 0; 255; 0; 0; 85]].
Proof.
  set (w := update (set_saturation 100) (update (set_hue 120) (paired steady_lamp))).
  destruct (setRgb_commands w) as (_ & _ & _ & _ & _ & events & Hem & Hcases).
  exists events. split; [exact Hem|].
  destruct Hcases as [(Hc & _) | [(_ & _ & Hsent & _) | (_ & Hfail & _)]].
  - discriminate Hc.
  - exact Hsent.
  - exfalso. apply Hfail. vm_compute. reflexivity.
Defined.

(** X25.  A colour frame that stops short of its colour bytes.  On a frame
    with discriminator 2 that has [data[10]] and no [data[13]] nothing is
    converted, the guard [if (hsl)] being false: [handleNotification]
    stores the colour brightness and the colour on-flag, keeps hue and
    saturation and the white channel as they were, and re-arms the idle
    timer as on any frame. *)
Theorem notification_short_colour `{ColorConvert} (data : list Z) (w : World) :
  data !! 8%nat = Some 2 -> (11 <= length data <= 13)%nat ->
  exists w',
    handleNotification data w = Some w'
    /\ colorBrightness (self w') = byte_at data 10
    /\ colorOn (self w') = (byte_at data 9 =? 1)
    /\ hue (self w') = hue (self w)
    /\ saturation (self w') = saturation (self w)
    /\ whiteOn (self w') = whiteOn (self w)
    /\ whiteBrightness (self w') = whiteBrightness (self w)
    /\ (single_timer w -> armed w' (now (rt w) + connectionTimeout (self w))).
Proof.
  intros Hd [Hmin Hmax].
  assert (Hrun : handleNotification data w
                 = Some (resetConnectionTimeout (updateHomeKitState
                     (update (set_colorOn (byte_at data 9 =? 1))
                        (update (set_colorBrightness (byte_at data 10)) w))))).
  { unfold handleNotification, rgb_hsl_at.
    rewrite (bool_decide_eq_true_2 _ Hd).
    rewrite (lookup_ge_None_2 data 13) by lia.
    rewrite (flag_at data 9) by lia.
    rewrite (byte_at_lookup data 10) by lia. reflexivity. }
  eexists. split; [exact Hrun|].
  match goal with
  | |- context [resetConnectionTimeout (updateHomeKitState ?w0)] =>
      pose proof (notify_tail_same_lamp w0) as (Hwo & Hco & Hwb & Hcb & Hh & Hs & _)
  end.
  rewrite Hwo, Hco, Hwb, Hcb, Hh, Hs.
  repeat split.
  intros Hsingle. exact (handleNotification_armed data w _ Hsingle Hrun).
Qed.

Lemma notification_short_colour_witness :
  colour_13 !! 8%nat = Some 2
  /\ (11 <= length colour_13 <= 13)%nat
  /\ exists w',
       handleNotification colour_13 (paired steady_lamp) = Some w'
       /\ colorBrightness (self w') = 70
       /\ colorOn (self w') = true
       /\ hue (self w') = 0
       /\ saturation (self w') = 0
       /\ armed w' 5000.
Proof.
  assert (Hd : colour_13 !! 8%nat = Some 2) by reflexivity.
  assert (Hlen : (11 <= length colour_13 <= 13)%nat) by (vm_compute; lia).
  split; [exact Hd|]. split; [exact Hlen|].
  destruct (notification_short_colour colour_13 (paired steady_lamp) Hd Hlen)
    as (w' & Hrun & Hcb & Hco & Hh & Hs & _ & _ & Harm).
  exists w'. split; [exact Hrun|].
  rewrite Hcb, Hco, Hh, Hs. repeat split.
  apply Harm. intros token deadline [].
Defined.
